(** * Farm data pipeline: a shallow embedding and its verified properties

    The embedding follows the Python sources file by file:
    - [Py]: exceptions, outcomes of a call, the state-and-exception monad;
    - [Pandas], [GroupBy]: the part of the DataFrame interface the pipeline
      calls, on frames kept as lists of labelled columns;
    - [External]: the libraries and services the pipeline calls, as the
      fields of a record every definition and theorem is parametric in;
    - [DataIngestion]: data_ingestion.py;
    - [Config]: config.py;
    - [FieldDataProcessor]: field_data_processor.py;
    - [WeatherDataProcessor]: weather_data_processor.py;
    - [Main]: main.py.
    Python floats are IEEE doubles, here the primitive floats.  A method is
    a function on the attributes of [self] that returns or raises; what it
    assigned before raising stays assigned.  Logging calls are left out:
    they change neither results nor state. *)

From Stdlib Require Import ZArith Ascii Uint63 PrimFloat SpecFloat FloatOps FloatAxioms.
From stdpp Require Import gmap strings pretty list fin_maps sorting.

Set Warnings "-inexact-float".

(* ===================================================================== *)
(** * Python outcomes *)
(* ===================================================================== *)
Module Py.

(** The exception classes the pipeline and its libraries raise; [ReError]
    is [re.error]. *)
Inductive exn : Type :=
| AttributeError (msg : string)
| IndexError (msg : string)
| KeyError (key : string)
| TypeError (msg : string)
| ValueError (msg : string)
| StopIteration
| ImportError (msg : string)
| EmptyDataError (msg : string)
| ReError (msg : string)
| OtherError (msg : string).

(** [isinstance(e, ValueError)], as the [except ValueError] clause tests it. *)
Definition is_ValueError (e : exn) : bool :=
  match e with ValueError _ => true | _ => false end.

Definition is_ImportError (e : exn) : bool :=
  match e with ImportError _ => true | _ => false end.

Definition is_EmptyDataError (e : exn) : bool :=
  match e with EmptyDataError _ => true | _ => false end.

(** What a call does: it returns, or an exception propagates.  [OutOfFuel]
    is not a Python outcome: it marks a loop of the model that was cut
    before the source loop ended. *)
Inductive outcome (A : Type) : Type :=
| Ok (a : A)
| Raise (e : exn)
| OutOfFuel.
Arguments Ok {A} a.
Arguments Raise {A} e.
Arguments OutOfFuel {A}.

#[global] Instance outcome_ret : MRet outcome := @Ok.
#[global] Instance outcome_bind : MBind outcome := λ A B f m,
  match m with
  | Ok a => f a
  | Raise e => Raise e
  | OutOfFuel => OutOfFuel
  end.

#[global] Instance outcome_fmap : FMap outcome := λ A B f m,
  match m with
  | Ok a => Ok (f a)
  | Raise e => Raise e
  | OutOfFuel => OutOfFuel
  end.

(** [try: body except Exception as e: handler e]. *)
Definition try_except {A} (body : outcome A) (handler : exn → outcome A) : outcome A :=
  match body with
  | Raise e => handler e
  | r => r
  end.

(** A method of an object of class [S]: it may rebind attributes of [self]
    and then return or raise.  An exception does not undo the assignments
    made before it. *)
Definition method (S A : Type) : Type := S → outcome A * S.

#[global] Instance method_ret {S} : MRet (method S) := λ A a self, (Ok a, self).
#[global] Instance method_bind {S} : MBind (method S) := λ A B f m self,
  match m self with
  | (Ok a, self') => f a self'
  | (Raise e, self') => (Raise e, self')
  | (OutOfFuel, self') => (OutOfFuel, self')
  end.

(** A call that does not touch [self]. *)
Definition call {S A} (r : outcome A) : method S A := λ self, (r, self).

(** Read [self]; [self.x = v] as a function on [self]. *)
Definition get_self {S} : method S S := λ self, (Ok self, self).
Definition assign {S} (f : S → S) : method S unit := λ self, (Ok tt, f self).

End Py.
Import Py.

(* ===================================================================== *)
(** * The DataFrame interface used by the pipeline *)
(* ===================================================================== *)
Module Pandas.

(** A cell: a missing object ([None]), a string, a 64-bit integer or a
    double.  In a column of doubles a missing value is [nan]. *)
Inductive cell : Type :=
| CNone
| CStr (s : string)
| CInt (z : Z)
| CFloat (f : float).

(** A frame is the list of its labelled columns, in column order; pandas
    allows a label to repeat.  The rows are the positions of the columns,
    which all have the length of the index.  Frames are held by value: an
    assignment into a frame gives the processor the updated frame, and a
    second reference to the frame object (the value [ingest_sql_data]
    returns) is not followed. *)
Abbreviation Series := (list cell).
Abbreviation DataFrame := (list (string * list cell)).

(** [df.columns] *)
Definition columns (df : DataFrame) : list string := df.*1.

(** [len(df.index)]: the common length of the columns.  A frame built from
    a query result or a CSV payload with no column has no row either. *)
Definition nrows (df : DataFrame) : nat :=
  match df with
  | [] => 0
  | (_, s) :: _ => length s
  end.

(** [df.empty]: any of the two axes has length 0. *)
Definition empty (df : DataFrame) : bool :=
  existsb (Nat.eqb 0) [nrows df; length (columns df)].

(** [df.rename(columns=mapper)]: every label that is a key of [mapper] is
    replaced, all at once; keys that label no column are ignored. *)
Definition rename (mapper : gmap string string) (df : DataFrame) : DataFrame :=
  prod_map (λ l, default l (mapper !! l)) id <$> df.

(** The columns stored under a label, in column order. *)
Definition select (label : string) (df : DataFrame) : list Series :=
  (filter (λ c, c.1 = label) df).*2.

(** [df[label]] is a Series when one column bears the label, and a
    sub-frame of all of them when the label repeats. *)
Inductive selection : Type :=
| OneSeries (s : Series)
| SubFrame (cols : list Series).

Definition getitem (df : DataFrame) (label : string) : outcome selection :=
  match select label df with
  | [] => Raise (KeyError label)
  | [s] => Ok (OneSeries s)
  | cols => Ok (SubFrame cols)
  end.

Definition selected (sel : selection) : list Series :=
  match sel with
  | OneSeries s => [s]
  | SubFrame cols => cols
  end.

(** Replace, from left to right, the columns labelled [label] by [news]. *)
Fixpoint replace_columns (label : string) (news : list Series) (df : DataFrame) : DataFrame :=
  match df with
  | [] => []
  | (l, s) :: df' =>
      if decide (l = label) then
        match news with
        | [] => (l, s) :: df'
        | n :: news' => (l, n) :: replace_columns label news' df'
        end
      else (l, s) :: replace_columns label news df'
  end.

(** [df[label] = value]: a new label is appended as a new column; an
    existing one has its column (all its columns, for a sub-frame of as many
    columns) overwritten in place.  A Series stored under a label that
    several columns bear goes whole into each of them, unless it has as
    many cells as there are such columns: the label counts as a list of
    columns then, and column [i] is filled with cell [i]. *)
Definition setitem (df : DataFrame) (label : string) (value : selection) : outcome DataFrame :=
  match select label df, value with
  | [], OneSeries s => Ok (df ++ [(label, s)])
  | [], SubFrame [s] => Ok (df ++ [(label, s)])
  | [], SubFrame _ => Raise (ValueError "Cannot set a DataFrame with multiple columns to the single column")
  | olds, OneSeries s =>
      if decide (1 < length olds ∧ length olds = length s)
      then Ok (replace_columns label ((λ c, replicate (nrows df) c) <$> s) df)
      else Ok (replace_columns label (replicate (length olds) s) df)
  | olds, SubFrame cols =>
      if decide (length olds = length cols) then Ok (replace_columns label cols df)
      else Raise (ValueError "Columns must be same length as key")
  end.

(** [abs] of one cell.  On 64-bit integers the most negative value wraps to
    itself; a string or [None] has no absolute value. *)
Definition abs_cell (c : cell) : outcome cell :=
  match c with
  | CFloat f => Ok (CFloat (PrimFloat.abs f))
  | CInt z => Ok (CInt (if decide (z = - 2 ^ 63)%Z then z else Z.abs z))
  | CStr _ => Raise (TypeError "bad operand type for abs(): 'str'")
  | CNone => Raise (TypeError "bad operand type for abs(): 'NoneType'")
  end.

(** [Series.abs()] *)
Definition series_abs (s : Series) : outcome Series := mapM abs_cell s.

(** [df[label].abs()], on a Series or on every column of a sub-frame. *)
Definition selection_abs (sel : selection) : outcome selection :=
  match sel with
  | OneSeries s => OneSeries <$> series_abs s
  | SubFrame cols => SubFrame <$> mapM series_abs cols
  end.

(** [Series.apply(func)] for a [func] from cells to cells. *)
Definition series_apply (func : cell → cell) (s : Series) : Series := func <$> s.

(** [df[label] = values] for a tuple: [objects] are its elements and
    [column] is the column pandas makes of the tuple as a whole.  With one
    object per row, under a label that several columns bear, as many as the
    tuple has elements, column [i] is filled with element [i]; otherwise
    the column is stored as a Series is.  A tuple of another length than
    the index is refused here.  (pandas looks for the duplicated label
    first, and so fills the columns also from a tuple that has their number
    of elements but not one per row; the tuples of [process_messages] have
    one element per message, which is one per row.) *)
Definition set_column (df : DataFrame) (label : string) (objects : list cell) (column : Series)
  : outcome DataFrame :=
  if decide (length objects = nrows df) then
    if decide (1 < length (select label df) ∧ length (select label df) = length objects)
    then Ok (replace_columns label ((λ c, replicate (nrows df) c) <$> objects) df)
    else setitem df label (OneSeries column)
  else Raise (ValueError ("Length of values (" +:+ pretty (length objects)
                          +:+ ") does not match length of index ("
                          +:+ pretty (nrows df) +:+ ")")).

End Pandas.
Import Pandas.

(* ===================================================================== *)
(** * The libraries and services outside the repository *)
(* ===================================================================== *)
Module External.

(** [sqlalchemy.engine.Engine]: an engine is bound to its locator. *)
Record Engine : Type := { url : string }.

(** What the pipeline calls and does not define.  Every theorem below holds
    for all of them. *)
Record Libraries : Type := {
  (** [sqlalchemy.create_engine(db_path)] *)
  create_engine : string → outcome Engine;
  (** [engine.connect()], released when its [with] block is left *)
  connect : Engine → outcome unit;
  (** [pd.read_sql_query(text(sql_query), connection)] *)
  read_sql_query : Engine → string → outcome DataFrame;
  (** [pd.read_csv(URL)] *)
  read_csv : string → outcome DataFrame;
  (** [left.merge(right, on=key, how=how)] *)
  merge : DataFrame → DataFrame → string → string → outcome DataFrame;
  (** a builtin method of [dict], called on an engine and a query text *)
  dict_builtin : string → option Engine → string → outcome DataFrame;
  (** what [re.compile(pattern)] raises, [re.error] on a pattern that is no
      regular expression; [None] when the pattern compiles *)
  re_compile_error : string → option exn;
  (** [re.compile(pattern).search(text)] for a pattern that compiles:
      [None], or the groups of the match, a group that took no part in the
      match being [None] *)
  pattern_search : string → string → option (list (option string));
  (** [float(text)], [None] standing for its [ValueError] *)
  float_of_str : string → option float;
  (** [f"{station_id}"] and [f"{p_val:.5f}"] *)
  format_int : Z → string;
  format_5f : float → string
}.

(** [re.search(pattern, message)]: the pattern is compiled, then searched
    for in the message, which has to be a string (the text of the
    [TypeError] varies with the version of Python). *)
Definition re_search (lib : Libraries) (pattern : string) (message : cell)
  : outcome (option (list (option string))) :=
  match re_compile_error lib pattern with
  | Some e => Raise e
  | None =>
      match message with
      | CStr text => Ok (pattern_search lib pattern text)
      | _ => Raise (TypeError "expected string or bytes-like object")
      end
  end.

End External.
Import External.

(* ===================================================================== *)
(** * data_ingestion.py *)
(* ===================================================================== *)
Module DataIngestion.
Section Adapter.
Context (lib : Libraries).

Definition create_db_engine (db_path : string) : outcome Engine :=
  try_except
    (engine ← create_engine lib db_path;
     connect lib engine;;
     Ok engine)
    (λ e, if is_ImportError e then Raise e else Raise e).

Definition query_data (engine : Engine) (sql_query : string) : outcome DataFrame :=
  try_except
    (connect lib engine;;
     df ← read_sql_query lib engine sql_query;
     if empty df then Raise (ValueError "The query returned an empty DataFrame.")
     else Ok df)
    (λ e, if is_ValueError e then Raise e else Raise e).

Definition read_from_web_CSV (URL : string) : outcome DataFrame :=
  try_except
    (read_csv lib URL)
    (λ e, if is_EmptyDataError e then Raise e else Raise e).

End Adapter.
End DataIngestion.
Import DataIngestion.

(* ===================================================================== *)
(** * config.py *)
(* ===================================================================== *)
Module Config.

(** [config_params] is a dict; a key may be absent.  The values are taken
    at the types the processors' docstrings give them.  [columns_to_rename]
    and [regex_patterns] are read in insertion order, so they are kept as
    the list of their items. *)
Record config : Type := {
  sql_query : option string;
  db_path : option string;
  columns_to_rename : option (list (string * string));
  values_to_rename : option (gmap string string);
  weather_csv_path : option string;
  weather_mapping_csv : option string;
  regex_patterns : option (list (string * string))
}.

(** [config_params[key]] *)
Definition item {A} (key : string) (v : option A) : outcome A :=
  match v with
  | Some a => Ok a
  | None => Raise (KeyError key)
  end.

(** The names a dict object answers to as attributes: the methods of its
    type.  Its keys are not attributes.  (Special double-underscore names
    are not listed; the pipeline looks none up.) *)
Definition dict_methods : list string :=
  ["clear"; "copy"; "fromkeys"; "get"; "items"; "keys"; "pop"; "popitem";
   "setdefault"; "update"; "values"].

(** [config_params.name] *)
Definition dict_getattr (name : string) : outcome string :=
  if decide (name ∈ dict_methods) then Ok name
  else Raise (AttributeError ("'dict' object has no attribute '" +:+ name +:+ "'")).

(** The dict literal of config.py. *)
Definition config_params : config := {|
  sql_query := Some "
        SELECT *
        FROM geographic_features
        LEFT JOIN weather_features USING (Field_ID)
        LEFT JOIN soil_and_crop_features USING (Field_ID)
        LEFT JOIN farm_management_features USING (Field_ID)
        ";
  db_path := Some "sqlite:///farm-survey.db";
  columns_to_rename := Some [("Annual_yield", "Crop_type"); ("Crop_type", "Annual_yield")];
  values_to_rename :=
    Some (<["teaa" := "tea"]> (<["wheatn" := "wheat"]> (<["cassaval" := "cassava"]> ∅)));
  weather_csv_path := Some "https://raw.githubusercontent.com/Explore-AI/Public-Data/master/Maji_Ndogo/Weather_station_data.csv";
  weather_mapping_csv := Some "https://raw.githubusercontent.com/Explore-AI/Public-Data/master/Maji_Ndogo/Weather_data_field_mapping.csv";
  regex_patterns := None
|}.

End Config.

(* ===================================================================== *)
(** * field_data_processor.py *)
(* ===================================================================== *)
Module FieldDataProcessor.

(** The attributes [__init__] binds on an instance ([logger] apart).  No
    code of the repository binds another one. *)
Record instance : Type := {
  db_path : string;
  sql_query : string;
  columns_to_rename : list (string * string);
  values_to_rename : gmap string string;
  weather_csv_path : string;
  weather_mapping_csv : string;
  df : option DataFrame;
  engine : option Engine
}.

Definition set_df (v : option DataFrame) (self : instance) : instance :=
  {| db_path := db_path self; sql_query := sql_query self;
     columns_to_rename := columns_to_rename self;
     values_to_rename := values_to_rename self;
     weather_csv_path := weather_csv_path self;
     weather_mapping_csv := weather_mapping_csv self;
     df := v; engine := engine self |}.

Definition set_engine (v : option Engine) (self : instance) : instance :=
  {| db_path := db_path self; sql_query := sql_query self;
     columns_to_rename := columns_to_rename self;
     values_to_rename := values_to_rename self;
     weather_csv_path := weather_csv_path self;
     weather_mapping_csv := weather_mapping_csv self;
     df := df self; engine := v |}.

(** [FieldDataProcessor(config_params)] *)
Definition init (config_params : Config.config) : outcome instance :=
  db_path ← Config.item "db_path" (Config.db_path config_params);
  sql_query ← Config.item "sql_query" (Config.sql_query config_params);
  columns_to_rename ← Config.item "columns_to_rename" (Config.columns_to_rename config_params);
  values_to_rename ← Config.item "values_to_rename" (Config.values_to_rename config_params);
  weather_csv_path ← Config.item "weather_csv_path" (Config.weather_csv_path config_params);
  weather_mapping_csv ← Config.item "weather_mapping_csv" (Config.weather_mapping_csv config_params);
  Ok {| db_path := db_path; sql_query := sql_query;
        columns_to_rename := columns_to_rename;
        values_to_rename := values_to_rename;
        weather_csv_path := weather_csv_path;
        weather_mapping_csv := weather_mapping_csv;
        df := None; engine := None |}.

(** The value of an attribute of an instance. *)
Inductive attr : Type :=
| AStr (s : string)
| AItems (d : list (string * string))
| AMap (d : gmap string string)
| AFrame (v : option DataFrame)
| AEngine (v : option Engine)
| ALogger
| AMethod (name : string).

(** [self.__dict__] *)
Definition instance_dict (self : instance) : gmap string attr :=
  list_to_map
    [("db_path", AStr (db_path self));
     ("sql_query", AStr (sql_query self));
     ("columns_to_rename", AItems (columns_to_rename self));
     ("values_to_rename", AMap (values_to_rename self));
     ("weather_csv_path", AStr (weather_csv_path self));
     ("weather_mapping_csv", AStr (weather_mapping_csv self));
     ("logger", ALogger);
     ("df", AFrame (df self));
     ("engine", AEngine (engine self))].

(** The methods of the class. *)
Definition class_dict : list string :=
  ["__init__"; "initialize_logging"; "ingest_sql_data"; "rename_columns";
   "apply_corrections"; "weather_station_mapping"; "process"].

(** [self.name]: the instance's own attributes first, then the class. *)
Definition getattr (self : instance) (name : string) : outcome attr :=
  match instance_dict self !! name with
  | Some a => Ok a
  | None =>
      if decide (name ∈ class_dict) then Ok (AMethod name)
      else Raise (AttributeError
                    ("'FieldDataProcessor' object has no attribute '" +:+ name +:+ "'"))
  end.

(** The argument of [pd.read_csv] has to be a path or a URL. *)
Definition as_path (a : attr) : outcome string :=
  match a with
  | AStr s => Ok s
  | _ => Raise (ValueError "Invalid file path or buffer object type")
  end.

(** [self.df.name]: [None] has no attribute. *)
Definition frame_attr (name : string) (v : option DataFrame) : outcome DataFrame :=
  match v with
  | Some d => Ok d
  | None => Raise (AttributeError ("'NoneType' object has no attribute '" +:+ name +:+ "'"))
  end.

(** [self.df[...]]: [None] cannot be indexed. *)
Definition frame_subscript (v : option DataFrame) : outcome DataFrame :=
  match v with
  | Some d => Ok d
  | None => Raise (TypeError "'NoneType' object is not subscriptable")
  end.

(** [list(d.keys())[0]] and [list(d.values())[0]] *)
Definition first_key (d : list (string * string)) : outcome string :=
  match d with
  | [] => Raise (IndexError "list index out of range")
  | (k, _) :: _ => Ok k
  end.

Definition first_value (d : list (string * string)) : outcome string :=
  match d with
  | [] => Raise (IndexError "list index out of range")
  | (_, v) :: _ => Ok v
  end.

(** [while temp_name in columns: temp_name += "_"], cut after [fuel] turns. *)
Fixpoint temp_name_loop (fuel : nat) (temp_name : string) (columns : list string) : outcome string :=
  if decide (temp_name ∈ columns) then
    match fuel with
    | 0 => OutOfFuel
    | S fuel' => temp_name_loop fuel' (temp_name +:+ "_") columns
    end
  else Ok temp_name.

(** [lambda crop: self.values_to_rename.get(crop, crop)].  The keys of the
    mapping are strings, so only a string cell can be one of them. *)
Definition correct_value (values_to_rename : gmap string string) (crop : cell) : cell :=
  match crop with
  | CStr s => default crop (CStr <$> values_to_rename !! s)
  | _ => crop
  end.

(** [df[column_name].apply(lambda crop: ...)].  On a Series the function is
    applied to each cell.  On a sub-frame it is applied to each column, and
    a Series is no dict key: [get] raises, unless the sub-frame has no row,
    in which case [apply] returns a copy of it. *)
Definition apply_correction (values_to_rename : gmap string string) (sel : selection) : outcome selection :=
  match sel with
  | OneSeries s => Ok (OneSeries (series_apply (correct_value values_to_rename) s))
  | SubFrame cols =>
      if decide (Forall (λ s, length s = 0) cols) then Ok (SubFrame cols)
      else Raise (TypeError "unhashable type: 'Series'")
  end.

Section Methods.
Context (lib : Libraries).

Definition ingest_sql_data : method instance (option DataFrame) :=
  self ← get_self;
  created ← call (create_db_engine lib (db_path self));
  assign (set_engine (Some created));;
  query_data ← call (Config.dict_getattr "query_data");
  self ← get_self;
  result ← call (dict_builtin lib query_data (engine self) (sql_query self));
  assign (set_df (Some result));;
  self ← get_self;
  mret (df self).

Definition rename_columns : method instance unit :=
  self ← get_self;
  column1 ← call (first_key (columns_to_rename self));
  column2 ← call (first_value (columns_to_rename self));
  frame ← call (frame_attr "columns" (df self));
  temp_name ← call (temp_name_loop (length (columns frame)) "__temp_name_for_swap__" (columns frame));
  frame ← call (frame_attr "rename" (df self));
  assign (set_df (Some (rename (<[column2 := column1]> {[column1 := temp_name]}) frame)));;
  self ← get_self;
  frame ← call (frame_attr "rename" (df self));
  assign (set_df (Some (rename {[temp_name := column2]} frame))).

Definition apply_corrections (column_name abs_column : string) : method instance unit :=
  self ← get_self;
  frame ← call (frame_subscript (df self));
  corrected ← call (getitem frame abs_column ≫= selection_abs);
  frame ← call (setitem frame abs_column corrected);
  assign (set_df (Some frame));;
  self ← get_self;
  frame ← call (frame_subscript (df self));
  corrected ← call (getitem frame column_name ≫= apply_correction (values_to_rename self));
  frame ← call (setitem frame column_name corrected);
  assign (set_df (Some frame)).

Definition weather_station_mapping : method instance unit :=
  self ← get_self;
  left ← call (frame_attr "merge" (df self));
  URL ← call (getattr self "weather_map_data" ≫= as_path);
  right ← call (read_from_web_CSV lib URL);
  joined ← call (merge lib left right "Field_ID" "outer");
  assign (set_df (Some joined)).

Definition process : method instance unit :=
  ingest_sql_data;;
  rename_columns;;
  apply_corrections "Crop_type" "Elevation";;
  weather_station_mapping.

End Methods.
End FieldDataProcessor.

(* ===================================================================== *)
(** * Grouped means: [groupby([a, b])[c].mean()] and [unstack()] *)
(* ===================================================================== *)
Module GroupBy.

(** Equality of doubles as terms; [nan] is one value. *)
#[global] Instance float_eq_dec : EqDecision float.
Proof.
  refine (λ x y,
    match PrimFloat.Leibniz.eqb x y as b return PrimFloat.Leibniz.eqb x y = b → Decision (x = y) with
    | true => λ H, left _
    | false => λ H, right _
    end eq_refl).
  - by apply FloatAxioms.Leibniz.eqb_spec.
  - intros E. apply FloatAxioms.Leibniz.eqb_spec in E. congruence.
Defined.

#[global] Instance cell_eq_dec : EqDecision cell.
Proof. solve_decision. Defined.

(** [pd.isna]: [None] and [nan] are missing. *)
Definition isna (c : cell) : bool :=
  match c with
  | CNone => true
  | CFloat f => PrimFloat.is_nan f
  | _ => false
  end.

(** Group keys are matched with [==], for which the two zeros of the
    doubles are one key.  (A column of numbers has one type, so an integer
    is never matched with a double.) *)
Definition key (c : cell) : cell :=
  match c with
  | CFloat f => if (f =? 0)%float then CFloat 0%float else c
  | _ => c
  end.

(** A 64-bit integer as a double. *)
Definition float_of_int (z : Z) : float :=
  if decide (z = - 2 ^ 63)%Z then (-9223372036854775808)%float
  else if decide (z < 0)%Z then (- PrimFloat.of_uint63 (Uint63.of_Z (- z)))%float
  else PrimFloat.of_uint63 (Uint63.of_Z z).

(** The number in a cell of the aggregated column; a missing cell is [nan].
    A string cannot be averaged. *)
Definition to_float (c : cell) : outcome float :=
  match c with
  | CFloat f => Ok f
  | CInt z => Ok (float_of_int z)
  | CNone => Ok PrimFloat.nan
  | CStr _ => Raise (TypeError "agg function failed [how->mean,dtype->object]")
  end.

(** The column a key or the aggregated values are read from: the label has
    to name one column. *)
Definition column (df : DataFrame) (label : string) : outcome Series :=
  match select label df with
  | [] => Raise (KeyError label)
  | [s] => Ok s
  | _ => Raise (ValueError ("Grouper for '" +:+ label +:+ "' not 1-dimensional"))
  end.

(** A row of the grouped frame: its two keys and its value. *)
Abbreviation row := (cell * cell * float)%type.

Fixpoint zip_rows (a b : Series) (c : list float) : list row :=
  match a, b, c with
  | x :: a', y :: b', z :: c' => (key x, key y, z) :: zip_rows a' b' c'
  | _, _, _ => []
  end.

(** Rows with a missing key belong to no group. *)
Definition keyed (r : row) : bool := negb (isna r.1.1) && negb (isna r.1.2).

(** The order in which group keys are listed: numbers before strings. *)
Definition cell_le (x y : cell) : Prop :=
  match x, y with
  | CInt a, CInt b => (a ≤ b)%Z
  | CFloat a, CFloat b => (a <=? b)%float = true
  | CInt a, CFloat b => (float_of_int a <=? b)%float = true
  | CFloat a, CInt b => (a <=? float_of_int b)%float = true
  | CStr a, CStr b => String.leb a b = true
  | CNone, _ => True
  | _, CNone => False
  | CStr _, _ => False
  | _, CStr _ => True
  end.

#[global] Instance cell_le_dec : RelDecision cell_le.
Proof. intros [] []; simpl; apply _. Defined.

(** The distinct keys of a list, sorted. *)
Definition sorted_keys (l : list cell) : list cell :=
  merge_sort cell_le (remove_dups l).

(** The numbers of the group [(a, b)], in row order, missing ones skipped. *)
Definition group_values (rows : list row) (a b : cell) : list float :=
  filter (λ v, PrimFloat.is_nan v = false)
    ((filter (λ r : row, r.1.1 = a ∧ r.1.2 = b) rows).*2).

(** The arithmetic mean of the doubles of a group, as pandas' [group_mean]
    computes it: the sum over the count, [nan] for an empty group.  The sum
    is added up in row order with a compensation term (Kahan's summation),
    which is put back to zero when it is not a number. *)
Definition kahan_step (acc : float * float) (val : float) : float * float :=
  let '(sumx, compensation) := acc in
  let y := (val - compensation)%float in
  let t := (sumx + y)%float in
  let c := (t - sumx - y)%float in
  (t, if PrimFloat.is_nan c then 0%float else c).

Definition sum (values : list float) : float := (foldl kahan_step (0%float, 0%float) values).1.

Definition mean (values : list float) : float :=
  match values with
  | [] => PrimFloat.nan
  | _ :: _ => (sum values / PrimFloat.of_uint63 (Uint63.of_Z (Z.of_nat (length values))))%float
  end.

(** [groupby(by=[a, b])[c].mean()]: one entry per pair of keys that occurs
    in a row, the outer key first. *)
Definition group_means (rows : list row) : list (cell * cell * float) :=
  let rows := filter (λ r, keyed r = true) rows in
  a ← sorted_keys (rows.*1.*1);
  b ← sorted_keys ((filter (λ r : row, r.1.1 = a) rows).*1.*2);
  [(a, b, mean (group_values rows a b))].

(** The table [unstack()] builds from a series with two levels of keys: a
    row per outer key, a column per inner key. *)
Record pivot : Type := {
  index : list cell;
  pivot_columns : list cell;
  data : list (list float)
}.

(** The entry of a two-level series, [nan] where the series has none. *)
Definition entry (series : list (cell * cell * float)) (a b : cell) : float :=
  match list_find (λ e, e.1.1 = a ∧ e.1.2 = b) series with
  | Some (_, e) => e.2
  | None => PrimFloat.nan
  end.

Definition unstack (series : list (cell * cell * float)) : pivot :=
  let idx := sorted_keys (series.*1.*1) in
  let cols := sorted_keys (series.*1.*2) in
  {| index := idx;
     pivot_columns := cols;
     data := (λ a, (λ b, entry series a b) <$> cols) <$> idx |}.


End GroupBy.
Import GroupBy.

(* ===================================================================== *)
(** * weather_data_processor.py *)
(* ===================================================================== *)
Module WeatherDataProcessor.

Record instance : Type := {
  weather_station_data : string;
  patterns : list (string * string);
  weather_df : option DataFrame
}.

Definition set_weather_df (v : option DataFrame) (self : instance) : instance :=
  {| weather_station_data := weather_station_data self;
     patterns := patterns self;
     weather_df := v |}.

(** [WeatherDataProcessor(config_params)] *)
Definition init (config_params : Config.config) : outcome instance :=
  weather_station_data ← Config.item "weather_csv_path" (Config.weather_csv_path config_params);
  patterns ← Config.item "regex_patterns" (Config.regex_patterns config_params);
  Ok {| weather_station_data := weather_station_data;
        patterns := patterns;
        weather_df := None |}.

(** [next(x for x in groups if x is not None)] *)
Fixpoint next_not_none (groups : list (option string)) : outcome string :=
  match groups with
  | [] => Raise StopIteration
  | Some x :: _ => Ok x
  | None :: groups' => next_not_none groups'
  end.

Section Methods.
Context (lib : Libraries).

(** [float(text)] *)
Definition parse_float (text : string) : outcome float :=
  match float_of_str lib text with
  | Some f => Ok f
  | None => Raise (ValueError ("could not convert string to float: '" +:+ text +:+ "'"))
  end.

Definition weather_station_mapping : method instance unit :=
  self ← get_self;
  frame ← call (read_from_web_CSV lib (weather_station_data self));
  assign (set_weather_df (Some frame)).

(** The [for key, pattern in self.patterns.items()] loop, over the items
    still to visit. *)
Fixpoint extract_from (items : list (string * string)) (message : cell)
  : outcome (option string * option float) :=
  match items with
  | [] => Ok (None, None)
  | (key, pattern) :: items' =>
      found ← re_search lib pattern message;
      match found with
      | Some groups =>
          value ← next_not_none groups ≫= parse_float;
          Ok (Some key, Some value)
      | None => extract_from items' message
      end
  end.

(** [message] is what the caller hands over: [process_messages] hands over
    the cells of the [Message] column, whatever they hold. *)
Definition extract_measurement (self : instance) (message : cell)
  : outcome (option string * option float) :=
  extract_from (patterns self) message.

(** [None] is returned when the table was never loaded. *)
Definition calculate_means (self : instance) : outcome (option pivot) :=
  match weather_df self with
  | Some frame =>
      stations ← column frame "Weather_station_ID";
      kinds ← column frame "Measurement";
      values ← column frame "Value" ≫= mapM to_float;
      let means := group_means (zip_rows stations kinds values) in
      Ok (Some (unstack means))
  | None => Ok None
  end.


(** The two tuples [zip] makes of the pairs of [result], the firsts and the
    seconds, unpacked into two targets; with no pair at all there is
    nothing to unpack. *)
Definition unzip (result : list (option string * option float))
  : outcome (list (option string) * list (option float)) :=
  match result with
  | [] => Raise (ValueError "not enough values to unpack (expected 2, got 0)")
  | _ :: _ => Ok (result.*1, result.*2)
  end.

(** The objects of the two tuples, as cells. *)
Definition kind_cell (k : option string) : cell :=
  match k with
  | Some s => CStr s
  | None => CNone
  end.

Definition value_cell (v : option float) : cell :=
  match v with
  | Some f => CFloat f
  | None => CNone
  end.

(** The column a tuple of kinds makes is one of objects, strings and
    [None].  The column a tuple of values makes: doubles, [None] becoming
    [nan], unless every value is [None] and the column is one of objects. *)
Definition value_column (values : list (option float)) : Series :=
  if decide (Forall (λ v, v = None) values) then (λ _, CNone) <$> values
  else (λ v, CFloat (default PrimFloat.nan v)) <$> values.

Section Messages.
(** When the label [Message] repeats, [self.weather_df['Message']] is a
    frame and [apply] hands whole columns to [extract_measurement]; what
    the method does from there on is not followed, and is left open. *)
Context (apply_to_frame : list Series → method instance (option DataFrame)).

Definition process_messages : method instance (option DataFrame) :=
  self ← get_self;
  match weather_df self with
  | Some frame =>
      messages ← call (getitem frame "Message");
      match messages with
      | OneSeries messages =>
          result ← call (mapM (extract_measurement self) messages);
          '(kinds, values) ← call (unzip result);
          frame ← call (set_column frame "Measurement" (kind_cell <$> kinds) (kind_cell <$> kinds));
          assign (set_weather_df (Some frame));;
          frame ← call (set_column frame "Value" (value_cell <$> values) (value_column values));
          assign (set_weather_df (Some frame));;
          self ← get_self;
          mret (weather_df self)
      | SubFrame cols => apply_to_frame cols
      end
  | None => mret None
  end.

Definition process : method instance unit :=
  weather_station_mapping;;
  process_messages;;
  mret ().

End Messages.
End Methods.
End WeatherDataProcessor.

(* ===================================================================== *)
(** * main.py *)
(* ===================================================================== *)
Module Main.
Section Report.
Context (lib : Libraries).

Definition rejected : string :=
  "  Null hypothesis rejected: There is a significant difference.".
Definition not_rejected : string :=
  "  Null hypothesis not rejected: There is no significant difference.".

(** The three [print] calls, as the lines they add to the standard output. *)
Definition print_ttest_results (station_id : Z) (measurement : string)
    (p_val alpha : float) (stdout : list string) : list string :=
  let stdout :=
    stdout ++ ["T-test results for station " +:+ format_int lib station_id
               +:+ " and measurement '" +:+ measurement +:+ "':"] in
  let stdout := stdout ++ ["  p-value: " +:+ format_5f lib p_val] in
  if (p_val <? alpha)%float then stdout ++ [rejected]
  else stdout ++ [not_rejected].


(** The names main.py binds at module level: its imports and its
    functions.  ([station_id] is a local of [main], and no builtin.) *)
Definition module_names : list string :=
  ["pd"; "ttest_ind"; "np"; "filter_field_data"; "filter_weather_data"; "run_ttest";
   "print_ttest_results"; "hypothesis_results"; "main"].

(** Reading a name that the function does not bind: it is looked up in the
    module.  [NameError] is no class of [exn]; it is carried by
    [OtherError]. *)
Definition read_global (name : string) : outcome string :=
  if decide (name ∈ module_names) then Ok name
  else Raise (OtherError ("NameError: name '" +:+ name +:+ "' is not defined")).

Section Driver.
(** What an iteration of [hypothesis_results] does with the object found
    under [station_id] (the two filters, the test and the report) is left
    open. *)
Context (compare : string → DataFrame → DataFrame → string → float → method (list string) unit).

(** The [for measurement in measurements_to_compare] loop, on the standard
    output. *)
Fixpoint hypothesis_loop (field_df weather_df : DataFrame) (measurements : list string)
    (alpha : float) : method (list string) unit :=
  match measurements with
  | [] => mret ()
  | measurement :: measurements' =>
      station_id ← call (read_global "station_id");
      compare station_id field_df weather_df measurement alpha;;
      hypothesis_loop field_df weather_df measurements' alpha
  end.

Definition hypothesis_results (field_df weather_df : DataFrame)
    (measurements_to_compare : list string) (alpha : float) : method (list string) unit :=
  assign (λ stdout, stdout ++ ["Hypothesis Testing Results:"]);;
  hypothesis_loop field_df weather_df measurements_to_compare alpha.

End Driver.
End Report.
End Main.

(* ===================================================================== *)
(** * config.py: the two entry points *)
(* ===================================================================== *)
Module Runs.
Section Runs.
Context (lib : Libraries).

Definition run_field_data_processing (config_params : Config.config)
  : outcome (option DataFrame) :=
  field_processor ← FieldDataProcessor.init config_params;
  match FieldDataProcessor.process lib field_processor with
  | (Ok _, field_processor) => Ok (FieldDataProcessor.df field_processor)
  | (Raise e, _) => Raise e
  | (OutOfFuel, _) => OutOfFuel
  end.

Definition run_weather_data_processing
    (apply_to_frame : list Series → method WeatherDataProcessor.instance (option DataFrame))
    (config_params : Config.config) : outcome (option DataFrame) :=
  weather_processor ← WeatherDataProcessor.init config_params;
  match WeatherDataProcessor.process lib apply_to_frame weather_processor with
  | (Ok _, weather_processor) => Ok (WeatherDataProcessor.weather_df weather_processor)
  | (Raise e, _) => Raise e
  | (OutOfFuel, _) => OutOfFuel
  end.

End Runs.
End Runs.

(* ===================================================================== *)
(** * Sample data *)
(* ===================================================================== *)
Module Examples.

(** A survey table of two fields, as the query returns it: the crop and the
    yield under each other's label, a misspelt crop, a negative elevation. *)
Definition survey : DataFrame :=
  [("Field_ID", [CInt 40734; CInt 30629]);
   ("Elevation", [CFloat (-786.0558)%float; CFloat 674.3341%float]);
   ("Annual_yield", [CStr "wheatn"; CStr "tea"]);
   ("Crop_type", [CFloat 0.5%float; CFloat 0.25%float])].

(** The processor [FieldDataProcessor(config_params)] builds from config.py. *)
Definition field_processor : FieldDataProcessor.instance :=
  {| FieldDataProcessor.db_path := "sqlite:///farm-survey.db";
     FieldDataProcessor.sql_query := default "" (Config.sql_query Config.config_params);
     FieldDataProcessor.columns_to_rename :=
       [("Annual_yield", "Crop_type"); ("Crop_type", "Annual_yield")];
     FieldDataProcessor.values_to_rename :=
       <["teaa" := "tea"]> (<["wheatn" := "wheat"]> (<["cassaval" := "cassava"]> ∅));
     FieldDataProcessor.weather_csv_path := default "" (Config.weather_csv_path Config.config_params);
     FieldDataProcessor.weather_mapping_csv := default "" (Config.weather_mapping_csv Config.config_params);
     FieldDataProcessor.df := None;
     FieldDataProcessor.engine := None |}.

(** The same processor once the survey table is loaded. *)
Definition loaded : FieldDataProcessor.instance :=
  FieldDataProcessor.set_df (Some survey) field_processor.

(** A mapping in which a canonical form is itself a key. *)
Definition chained : gmap string string := <["b" := "c"]> {["a" := "b"]}.

Definition chained_processor : FieldDataProcessor.instance :=
  {| FieldDataProcessor.db_path := "";
     FieldDataProcessor.sql_query := "";
     FieldDataProcessor.columns_to_rename := [];
     FieldDataProcessor.values_to_rename := chained;
     FieldDataProcessor.weather_csv_path := "";
     FieldDataProcessor.weather_mapping_csv := "";
     FieldDataProcessor.df := Some [("Crop_type", [CStr "a"]); ("Elevation", [CFloat 1%float])];
     FieldDataProcessor.engine := None |}.

(** A table of station messages once parsed: three temperatures at station
    S1, one rainfall at S2, and a message that no pattern matched. *)
Definition weather : DataFrame :=
  [("Weather_station_ID", [CStr "S1"; CStr "S2"; CStr "S1"; CStr "S1"; CStr "S2"]);
   ("Message", [CStr "Temperature: 10.0 C"; CStr "Rainfall: 5.0 mm";
                CStr "Temperature: 20.0 C"; CStr "Temperature: 30.0 C"; CStr "no reading"]);
   ("Measurement", [CStr "Temperature"; CStr "Rainfall"; CStr "Temperature";
                    CStr "Temperature"; CNone]);
   ("Value", [CFloat 10%float; CFloat 5%float; CFloat 20%float; CFloat 30%float;
              CFloat PrimFloat.nan])].

Definition weather_processor : WeatherDataProcessor.instance :=
  {| WeatherDataProcessor.weather_station_data := "weather.csv";
     WeatherDataProcessor.patterns := [("Rainfall", "Rainfall: "); ("Temperature", "Temperature: ")];
     WeatherDataProcessor.weather_df := Some weather |}.

(** Stand-ins for the libraries, enough to run the samples.  The search
    knows one shape of pattern only: a literal that has to start the
    message, followed by an optional group of digits and dots.  The
    compiler refuses one pattern, an opening parenthesis left open. *)
Definition is_number_char (c : Ascii.ascii) : bool :=
  bool_decide (c ∈ ["0"; "1"; "2"; "3"; "4"; "5"; "6"; "7"; "8"; "9"; "."]%char).

Fixpoint take_number (s : string) : string :=
  match s with
  | String c s' => if is_number_char c then String c (take_number s') else ""
  | EmptyString => ""
  end.

Definition search (pattern message : string) : option (list (option string)) :=
  if String.prefix pattern message then
    let number :=
      take_number (String.substring (String.length pattern) (String.length message) message) in
    Some [if decide (number = "") then None else Some number]
  else None.

Definition compile_error (pattern : string) : option exn :=
  if decide (pattern = "(")
  then Some (ReError "missing ), unterminated subpattern at position 0")
  else None.

Definition read_float (text : string) : option float :=
  if decide (text = "19.5") then Some 19.5%float
  else if decide (text = "10.0") then Some 10%float
  else if decide (text = "5.0") then Some 5%float
  else None.

Definition library : Libraries :=
  {| create_engine := λ db_path, Ok {| url := db_path |};
     connect := λ _, Ok ();
     read_sql_query := λ _ _, Ok survey;
     read_csv := λ _, Ok weather;
     merge := λ _ _ _ _, Raise (OtherError "merge: not provided");
     dict_builtin := λ _ _ _, Raise (TypeError "dict method: not provided");
     re_compile_error := compile_error;
     pattern_search := search;
     float_of_str := read_float;
     format_int := λ z, pretty z;
     format_5f := λ _, "0.04000" |}.


(** A table of station messages as the feed gives it, and a processor that
    holds it. *)
Definition feed : DataFrame :=
  [("Weather_station_ID", [CStr "S1"; CStr "S2"; CStr "S1"]);
   ("Message", [CStr "Temperature: 10.0 C"; CStr "Rainfall: 5.0 mm"; CStr "no reading"])].

Definition feed_processor : WeatherDataProcessor.instance :=
  {| WeatherDataProcessor.weather_station_data := "weather.csv";
     WeatherDataProcessor.patterns := [("Rainfall", "Rainfall: "); ("Temperature", "Temperature: ")];
     WeatherDataProcessor.weather_df := Some feed |}.

(** A processor whose only pattern is no regular expression. *)
Definition unbalanced_processor : WeatherDataProcessor.instance :=
  {| WeatherDataProcessor.weather_station_data := "weather.csv";
     WeatherDataProcessor.patterns := [("T", "(")];
     WeatherDataProcessor.weather_df := Some feed |}.

(** A stand-in for what happens to a table with several [Message] columns. *)
Definition refuse (cols : list Series)
  : method WeatherDataProcessor.instance (option DataFrame) :=
  call (Raise (OtherError "several Message columns: not provided")).

End Examples.

(* ===================================================================== *)
(** * Vocabulary of the statements *)
(* ===================================================================== *)
Module Notions.

(** The exchange of two labels. *)
Definition swap_label (A B l : string) : string :=
  if decide (l = A) then B else if decide (l = B) then A else l.

(** A frame with every label sent through [f], the data left in place. *)
Definition relabel (f : string → string) (df : DataFrame) : DataFrame :=
  prod_map f id <$> df.

(** No canonical form of the mapping is itself a misspelling of something
    else. *)
Definition canonical_closed (m : gmap string string) : Prop :=
  ∀ k v, m !! k = Some v → m !! v = None ∨ m !! v = Some v.

(** What an assignment [df[label] = ...] may change: the data stored under
    the labels [ls], and nothing else. *)
Definition same_frame_except (ls : list string) (d d' : DataFrame) : Prop :=
  columns d' = columns d ∧
  length <$> d'.*2 = length <$> d.*2 ∧
  ∀ l, l ∉ ls → select l d' = select l d.

(** A selection and its replacement have the same shape: as many columns,
    each of the length it had. *)
Definition same_shape (sel sel' : selection) : Prop :=
  match sel, sel' with
  | OneSeries s, OneSeries s' => length s' = length s
  | SubFrame cols, SubFrame cols' => length <$> cols' = length <$> cols
  | _, _ => False
  end.

(** [text] is the first group of [groups] that is not [None]. *)
Definition first_group (groups : list (option string)) (text : string) : Prop :=
  ∃ n rest, groups = replicate n None ++ Some text :: rest.

(** The names the placeholder loop tries, in turn. *)
Fixpoint append_underscores (n : nat) (temp_name : string) : string :=
  match n with
  | 0 => temp_name
  | S n' => append_underscores n' (temp_name +:+ "_")
  end.

(** A cell that holds a number. *)
Definition is_number (c : cell) : Prop :=
  match c with
  | CInt _ | CFloat _ => True
  | _ => False
  end.

(** What [df[label]] yields is the list of the columns of that label, as a
    Series when it is one column and as a sub-frame of at least two. *)
Definition proper (sel : selection) : Prop :=
  match sel with
  | OneSeries _ => True
  | SubFrame cols => 2 ≤ length cols
  end.


(** The key a dict lacks, if it lacks it. *)
Definition absent {A} (key : string) (v : option A) : list string :=
  match v with
  | Some _ => []
  | None => [key]
  end.

(** The keys [FieldDataProcessor.__init__] reads and the dict lacks, in the
    order it reads them; likewise for [WeatherDataProcessor.__init__]. *)
Definition field_keys_absent (cfg : Config.config) : list string :=
  absent "db_path" (Config.db_path cfg) ++
  absent "sql_query" (Config.sql_query cfg) ++
  absent "columns_to_rename" (Config.columns_to_rename cfg) ++
  absent "values_to_rename" (Config.values_to_rename cfg) ++
  absent "weather_csv_path" (Config.weather_csv_path cfg) ++
  absent "weather_mapping_csv" (Config.weather_mapping_csv cfg).

Definition weather_keys_absent (cfg : Config.config) : list string :=
  absent "weather_csv_path" (Config.weather_csv_path cfg) ++
  absent "regex_patterns" (Config.regex_patterns cfg).

(** Every column of a frame has one cell per row. *)
Definition rectangular (df : DataFrame) : Prop :=
  Forall (λ s : Series, length s = nrows df) df.*2.
End Notions.
Import Notions.

(* ===================================================================== *)
(** * Attributes of a processor *)
(* ===================================================================== *)

Lemma set_df_same (self : FieldDataProcessor.instance) :
  FieldDataProcessor.set_df (FieldDataProcessor.df self) self = self.
Proof. by destruct self. Qed.

Lemma set_df_twice v w (self : FieldDataProcessor.instance) :
  FieldDataProcessor.set_df v (FieldDataProcessor.set_df w self) = FieldDataProcessor.set_df v self.
Proof. by destruct self. Qed.

(* ===================================================================== *)
(** * Column relabel *)
(* ===================================================================== *)
Section ColumnRelabel.
Import FieldDataProcessor.

Lemma swap_label_involutive A B l : swap_label A B (swap_label A B l) = l.
Proof. unfold swap_label. repeat case_decide; congruence. Qed.

Lemma swap_label_inj A B : Inj (=) (=) (swap_label A B).
Proof.
  intros x y E. rewrite <-(swap_label_involutive A B x), E.
  apply swap_label_involutive.
Qed.

Lemma swap_label_l A B : swap_label A B A = B.
Proof. unfold swap_label. by rewrite decide_True. Qed.

Lemma swap_label_r A B : swap_label A B B = A.
Proof. unfold swap_label. repeat case_decide; congruence. Qed.

Lemma swap_label_other A B l : l ≠ A → l ≠ B → swap_label A B l = l.
Proof. intros. unfold swap_label. by rewrite !decide_False. Qed.

Lemma columns_relabel f frame : columns (relabel f frame) = f <$> columns frame.
Proof.
  unfold columns, relabel. rewrite <-!list_fmap_compose.
  by apply list_fmap_ext; intros ? [] ?.
Qed.

Lemma relabel_data f frame : (relabel f frame).*2 = frame.*2.
Proof.
  unfold relabel. rewrite <-list_fmap_compose.
  by apply list_fmap_ext; intros ? [] ?.
Qed.

Lemma relabel_relabel f g frame : relabel g (relabel f frame) = relabel (g ∘ f) frame.
Proof.
  unfold relabel. rewrite <-list_fmap_compose.
  by apply list_fmap_ext; intros ? [] ?.
Qed.

Lemma relabel_ext f g frame :
  (∀ l, l ∈ columns frame → f l = g l) → relabel f frame = relabel g frame.
Proof.
  intros E. unfold relabel. apply Forall_fmap_ext, Forall_forall.
  intros [l s] Hin. simpl. f_equal. apply E.
  unfold columns. apply list_elem_of_fmap. by exists (l, s).
Qed.

Lemma relabel_id frame : relabel id frame = frame.
Proof.
  unfold relabel. rewrite <-(list_fmap_id frame) at 2.
  by apply list_fmap_ext; intros ? [] ?.
Qed.

(** Reading a label after an injective relabelling. *)
Lemma select_relabel f `{!Inj (=) (=) f} l frame :
  select (f l) (relabel f frame) = select l frame.
Proof.
  unfold select, relabel. induction frame as [|[l' s] frame IH]; [done|].
  rewrite fmap_cons. simpl. rewrite !filter_cons. simpl.
  destruct (decide (l' = l)) as [->|Hne].
  - rewrite decide_True by done. rewrite !fmap_cons. simpl. by f_equal.
  - rewrite decide_False; [done|]. intros E. by apply Hne, (inj f).
Qed.

Lemma length_filter_impl {A} (P Q : A → Prop)
    `{!∀ x, Decision (P x)} `{!∀ x, Decision (Q x)} (l : list A) :
  (∀ x, P x → Q x) → length (filter P l) ≤ length (filter Q l).
Proof.
  intros HPQ. induction l as [|x l IH]; [done|].
  rewrite !filter_cons. destruct (decide (P x)) as [HP|HP].
  - rewrite decide_True by auto. simpl. lia.
  - case_decide; simpl; lia.
Qed.

Lemma string_length_app (s t : string) :
  String.length (s +:+ t) = String.length s + String.length t.
Proof. induction s as [|a s IH]; simpl; [done|by rewrite IH]. Qed.

(** The loop that picks the placeholder ends, and on a label that no column
    bears.  Each turn leaves fewer columns at least as long as the name. *)
Lemma temp_name_loop_fresh fuel cols temp_name :
  length (filter (λ c, String.length temp_name ≤ String.length c) cols) ≤ fuel →
  ∃ t, temp_name_loop fuel temp_name cols = Ok t ∧ t ∉ cols.
Proof.
  revert temp_name. induction fuel as [|fuel IH]; intros temp_name Hfuel; simpl.
  - case_decide as Hin; [|by eauto].
    exfalso. assert (temp_name ∈ filter (λ c, String.length temp_name ≤ String.length c) cols) as Hf.
    { apply list_elem_of_filter. split; [lia|done]. }
    destruct (filter _ cols); [by apply not_elem_of_nil in Hf|simpl in Hfuel; lia].
  - case_decide as Hin; [|by eauto].
    apply IH.
    assert (String.length (temp_name +:+ "_") = S (String.length temp_name)) as ->.
    { rewrite string_length_app. simpl. lia. }
    cut (length (filter (λ c, S (String.length temp_name) ≤ String.length c) cols)
         < length (filter (λ c, String.length temp_name ≤ String.length c) cols)); [lia|].
    clear -Hin. induction cols as [|c cols IHc]; [by apply not_elem_of_nil in Hin|].
    rewrite !filter_cons.
    destruct (decide (temp_name ∈ cols)) as [Hin'|Hout].
    + specialize (IHc Hin'). repeat case_decide; simpl; lia.
    + apply elem_of_cons in Hin as [<-|]; [|done].
      rewrite decide_False by lia. rewrite decide_True by lia. simpl.
      apply Nat.lt_succ_r, length_filter_impl. intros; lia.
Qed.

(** With as many turns as the frame has columns, the loop ends. *)
Lemma temp_name_fresh cols temp_name :
  ∃ t, temp_name_loop (length cols) temp_name cols = Ok t ∧ t ∉ cols.
Proof. apply temp_name_loop_fresh, length_filter. Qed.

(** The two [rename] calls make up the exchange of the two labels, as soon
    as the placeholder is a label of no column and is not the first label. *)
Lemma rename_rename_swap A B t frame :
  t ∉ columns frame → t ≠ A →
  rename {[t := B]} (rename (<[B := A]> {[A := t]}) frame) = relabel (swap_label A B) frame.
Proof.
  intros Hfresh HtA. change (rename ?m) with (relabel (λ l, default l (m !! l))).
  rewrite relabel_relabel. apply relabel_ext. intros l Hl. simpl.
  assert (l ≠ t) as Hlt by (by intros ->).
  unfold swap_label. destruct (decide (l = A)) as [->|HlA].
  - destruct (decide (B = A)) as [->|HBA].
    + rewrite lookup_insert_eq. simpl. by rewrite lookup_singleton_ne.
    + rewrite lookup_insert_ne, lookup_singleton_eq by done. simpl.
      by rewrite lookup_singleton_eq.
  - destruct (decide (l = B)) as [->|HlB].
    + rewrite lookup_insert_eq. simpl. by rewrite lookup_singleton_ne.
    + rewrite lookup_insert_ne, lookup_singleton_ne by done. simpl.
      by rewrite lookup_singleton_ne.
Qed.

(** What [rename_columns] does on a frame that holds the first label. *)
Lemma rename_columns_relabel self frame A B rest :
  df self = Some frame →
  columns_to_rename self = (A, B) :: rest →
  A ∈ columns frame →
  rename_columns self = (Ok (), set_df (Some (relabel (swap_label A B) frame)) self).
Proof.
  intros Hdf Hcfg HA.
  destruct (temp_name_fresh (columns frame) "__temp_name_for_swap__") as (t & Hloop & Hfresh).
  unfold rename_columns, mbind, method_bind, get_self, call, assign.
  rewrite Hcfg, Hdf. simpl. rewrite Hloop. simpl.
  rewrite set_df_twice. do 3 f_equal.
  apply rename_rename_swap; [done|]. by intros ->.
Qed.

(** C1.  On a table that holds the two configured labels A and B,
    [rename_columns] returns, and it is a true swap: what was stored under A
    is then read under B and what was stored under B under A, every other
    label reads what it read before, the labels stay in their positions up
    to the exchange, the data of every column is untouched, and a second
    call gives back the processor it started from, labels and data. *)
Theorem rename_columns_true_swap self frame A B rest :
  df self = Some frame →
  columns_to_rename self = (A, B) :: rest →
  A ∈ columns frame → B ∈ columns frame →
  ∃ frame',
    rename_columns self = (Ok (), set_df (Some frame') self) ∧
    select B frame' = select A frame ∧
    select A frame' = select B frame ∧
    (∀ l, l ≠ A → l ≠ B → select l frame' = select l frame) ∧
    columns frame' = swap_label A B <$> columns frame ∧
    frame'.*2 = frame.*2 ∧
    rename_columns (set_df (Some frame') self) = (Ok (), self).
Proof.
  intros Hdf Hcfg HA HB. exists (relabel (swap_label A B) frame).
  pose proof (swap_label_inj A B) as Hinj.
  split_and!.
  - by eapply rename_columns_relabel.
  - rewrite <-(swap_label_l A B) at 1. by apply select_relabel.
  - rewrite <-(swap_label_r A B) at 1. by apply select_relabel.
  - intros l HlA HlB. rewrite <-(swap_label_other A B l) at 1 by done.
    by apply select_relabel.
  - apply columns_relabel.
  - apply relabel_data.
  - erewrite rename_columns_relabel; [|done|by destruct self|].
    + rewrite set_df_twice, relabel_relabel.
      rewrite (relabel_ext _ id frame), relabel_id, <-Hdf, set_df_same; [done|].
      intros l _. apply swap_label_involutive.
    + rewrite columns_relabel. apply list_elem_of_fmap.
      exists B. by rewrite swap_label_r.
Qed.

End ColumnRelabel.

(* ===================================================================== *)
(** * Value correction *)
(* ===================================================================== *)
Section ValueCorrection.
Import FieldDataProcessor.

Lemma same_frame_except_refl ls d : same_frame_except ls d d.
Proof. by split_and!. Qed.

Lemma same_frame_except_trans ls1 ls2 d1 d2 d3 :
  same_frame_except ls1 d1 d2 → same_frame_except ls2 d2 d3 →
  same_frame_except (ls1 ++ ls2) d1 d3.
Proof.
  intros (Hc1 & Hn1 & Hs1) (Hc2 & Hn2 & Hs2). split_and!.
  - by rewrite Hc2.
  - by rewrite Hn2.
  - intros l Hl. rewrite not_elem_of_app in Hl. destruct Hl.
    rewrite Hs2, Hs1; done.
Qed.

Lemma same_frame_except_nrows ls d d' : same_frame_except ls d d' → nrows d' = nrows d.
Proof.
  intros (_ & Hn & _). destruct d as [|[??] ?], d' as [|[??] ?]; simpl in *; congruence.
Qed.

Lemma select_cons l l' s (d : DataFrame) :
  select l ((l', s) :: d) = if decide (l' = l) then s :: select l d else select l d.
Proof. unfold select. rewrite filter_cons. simpl. by case_decide. Qed.

Lemma replace_columns_frame label news d :
  length <$> news = length <$> select label d →
  same_frame_except [label] d (replace_columns label news d) ∧
  select label (replace_columns label news d) = news.
Proof.
  revert news. induction d as [|[l s] d IH]; intros news Hlen.
  - destruct news; [|done]. by split; [apply same_frame_except_refl|].
  - rewrite select_cons in Hlen. simpl. case_decide as Hl.
    + subst l. destruct news as [|n news]; [done|].
      rewrite !fmap_cons in Hlen. injection Hlen as Hn Hlen.
      destruct (IH news Hlen) as ((Hc & Hd & Hs) & Hsel).
      split; [split_and!|].
      * unfold columns in *. rewrite !fmap_cons. by f_equal.
      * rewrite !fmap_cons. simpl. by f_equal.
      * intros l Hl. rewrite !select_cons.
        case_decide; [exfalso; apply Hl; subst; by left|by apply Hs].
      * rewrite select_cons, decide_True by done. by f_equal.
    + destruct (IH news Hlen) as ((Hc & Hd & Hs) & Hsel).
      split; [split_and!|].
      * unfold columns in *. rewrite !fmap_cons. by f_equal.
      * rewrite !fmap_cons. simpl. by f_equal.
      * intros l' Hl'. rewrite !select_cons. case_decide; [f_equal|]; by apply Hs.
      * by rewrite select_cons, decide_False.
Qed.

(** A successful [mapM] pairs every input with its result. *)
Lemma mapM_outcome_Forall2 {A B} (f : A → outcome B) (l : list A) (k : list B) :
  mapM f l = Ok k → Forall2 (λ x y, f x = Ok y) l k.
Proof.
  revert k. induction l as [|x l IH]; intros k; simpl.
  - intros [= <-]. constructor.
  - unfold mbind, outcome_bind at 1. destruct (f x) as [y| |] eqn:Hx; [|done..].
    unfold mbind, outcome_bind at 1. destruct (mapM f l) as [k'| |]; [|done..].
    intros [= <-]. constructor; auto.
Qed.

Lemma series_abs_length s s' : series_abs s = Ok s' → length s' = length s.
Proof.
  intros H. apply mapM_outcome_Forall2 in H. symmetry. by eapply Forall2_length.
Qed.

Lemma selection_abs_shape sel sel' : selection_abs sel = Ok sel' → same_shape sel sel'.
Proof.
  destruct sel as [s|cols]; simpl.
  - destruct (series_abs s) as [s'| |] eqn:Hs; [|done..].
    intros [= <-]. simpl. by apply series_abs_length.
  - destruct (mapM series_abs cols) as [cols'| |] eqn:Hc; [|done..].
    intros [= <-]. simpl. apply mapM_outcome_Forall2 in Hc.
    induction Hc as [|s s' cols cols' Hs _ IH]; [done|].
    rewrite !fmap_cons. f_equal; [by apply series_abs_length|done].
Qed.

Lemma apply_correction_shape m sel sel' : apply_correction m sel = Ok sel' → same_shape sel sel'.
Proof.
  destruct sel as [s|cols]; simpl.
  - intros [= <-]. simpl. unfold series_apply. by rewrite length_fmap.
  - case_decide; [|done]. by intros [= <-].
Qed.

(** Storing back under its label a selection of the shape of the one read
    there overwrites the columns of that label and nothing else. *)
Lemma setitem_getitem d label sel sel' :
  getitem d label = Ok sel → same_shape sel sel' →
  setitem d label sel' = Ok (replace_columns label (selected sel') d) ∧
  same_frame_except [label] d (replace_columns label (selected sel') d) ∧
  select label (replace_columns label (selected sel') d) = selected sel'.
Proof.
  unfold getitem, setitem. intros Hget Hshape.
  destruct (select label d) as [|s [|s2 olds]] eqn:Hsel; [done| |].
  - injection Hget as <-. destruct sel' as [s'|]; [|done]. simpl in *.
    split; [done|]. apply replace_columns_frame. rewrite Hsel. simpl. by f_equal.
  - injection Hget as <-. destruct sel' as [|cols']; [done|].
    unfold same_shape in Hshape. pose proof (f_equal length Hshape) as Hlen.
    rewrite !length_fmap in Hlen. unfold selected.
    rewrite decide_True by done.
    split; [done|]. apply replace_columns_frame. by rewrite Hsel.
Qed.

(** One statement [df[label] = op(df[label])]: it raises and leaves the
    frame alone, or it overwrites the columns of [label]. *)
Lemma update_column d label (op : selection → outcome selection) :
  (∀ sel sel', op sel = Ok sel' → same_shape sel sel') →
  match getitem d label ≫= op with
  | Ok sel' =>
      setitem d label sel' = Ok (replace_columns label (selected sel') d) ∧
      same_frame_except [label] d (replace_columns label (selected sel') d)
  | _ => True
  end.
Proof.
  intros Hop. destruct (getitem d label) as [sel| |] eqn:Hget; simpl; [|done..].
  destruct (op sel) as [sel'| |] eqn:Hsel; [|done..].
  destruct (setitem_getitem d label sel sel' Hget (Hop _ _ Hsel)) as (? & ? & _).
  done.
Qed.

Lemma mapM_outcome_fuel {A B} (f : A → outcome B) (l : list A) :
  (∀ x, f x ≠ OutOfFuel) → mapM f l ≠ OutOfFuel.
Proof.
  intros Hf. induction l as [|x l IH]; simpl; [done|].
  unfold mbind, outcome_bind at 1. specialize (Hf x).
  destruct (f x); [|done..].
  unfold mbind, outcome_bind at 1. by destruct (mapM f l).
Qed.

Lemma selection_abs_fuel sel : selection_abs sel ≠ OutOfFuel.
Proof.
  assert (∀ s, series_abs s ≠ OutOfFuel) as Hs.
  { intros s. apply mapM_outcome_fuel. by intros []. }
  destruct sel as [s|cols]; simpl.
  - specialize (Hs s). by destruct (series_abs s).
  - pose proof (mapM_outcome_fuel series_abs cols Hs). by destruct (mapM series_abs cols).
Qed.

(** C10.  [apply_corrections] touches the data of its two named columns and
    nothing else.  On every frame (so on every frame that contains the two
    columns), and whether the call returns or raises, the processor then
    holds a frame with the same labels in the same order, the same number of
    rows (every column keeps its length) and, under every label other than
    the two named ones, the same data; the other attributes of the processor
    are unchanged. *)
Theorem apply_corrections_frame self frame column_name abs_column :
  df self = Some frame →
  ∃ frame',
    df (apply_corrections column_name abs_column self).2 = Some frame' ∧
    columns frame' = columns frame ∧
    nrows frame' = nrows frame ∧
    length <$> frame'.*2 = length <$> frame.*2 ∧
    (∀ l, l ≠ abs_column → l ≠ column_name → select l frame' = select l frame) ∧
    (apply_corrections column_name abs_column self).2 = set_df (Some frame') self ∧
    (apply_corrections column_name abs_column self).1 ≠ OutOfFuel.
Proof.
  intros Hdf.
  cut (∃ frame', same_frame_except [abs_column; column_name] frame frame' ∧
         (apply_corrections column_name abs_column self).2 = set_df (Some frame') self ∧
         (apply_corrections column_name abs_column self).1 ≠ OutOfFuel).
  { intros (frame' & Hsame & Hst & Hfuel). exists frame'.
    pose proof (same_frame_except_nrows _ _ _ Hsame) as Hrows.
    destruct Hsame as (Hc & Hn & Hs). rewrite Hst. split_and!; try done.
    intros l ? ?. apply Hs. by intros [-> | ->%list_elem_of_singleton]%elem_of_cons. }
  assert (self = set_df (Some frame) self) as Hself by (by rewrite <-Hdf, set_df_same).
  pose proof (update_column frame abs_column selection_abs selection_abs_shape) as H1.
  cbv [apply_corrections mbind method_bind get_self call assign] in *.
  rewrite Hdf. simpl.
  destruct (getitem frame abs_column) as [sel1| |] eqn:Hget1; simpl in *;
    [| by exists frame; split_and!; [apply same_frame_except_refl|..]
     | by unfold getitem in Hget1; repeat case_match ].
  pose proof (selection_abs_fuel sel1) as Hfuel1.
  destruct (selection_abs sel1) as [c1| |] eqn:Habs;
    [| by exists frame; split_and!; [apply same_frame_except_refl|..] | done ].
  destruct H1 as [-> Hsame1]. set (frame1 := replace_columns abs_column (selected c1) frame) in *.
  pose proof (update_column frame1 column_name (apply_correction (values_to_rename self))
                (apply_correction_shape _)) as H2.
  cbv [mbind] in H2.
  assert (same_frame_except [abs_column; column_name] frame frame1) as Hsame1'.
  { destruct Hsame1 as (? & ? & Hs). split_and!; [done..|]. intros l Hl. apply Hs.
    intros ->%list_elem_of_singleton. apply Hl. by left. }
  destruct (getitem frame1 column_name) as [sel2| |] eqn:Hget2; simpl in *;
    [| by exists frame1 | by unfold getitem in Hget2; repeat case_match ].
  destruct (apply_correction (values_to_rename self) sel2) as [c2| |] eqn:Hcorr;
    [| by exists frame1 | by destruct sel2; simpl in Hcorr; repeat case_match ].
  destruct H2 as [-> Hsame2]. simpl. eexists. split_and!; [|by rewrite set_df_twice|done].
  apply (same_frame_except_trans [abs_column] [column_name] _ _ _ Hsame1 Hsame2).
Qed.

(** The steps of a call of [apply_corrections] that returns. *)
Lemma apply_corrections_ok column_name abs_column self self' :
  apply_corrections column_name abs_column self = (Ok (), self') →
  ∃ frame sel1 c1 frame1 sel2 c2 frame2,
    df self = Some frame ∧
    getitem frame abs_column = Ok sel1 ∧ selection_abs sel1 = Ok c1 ∧
    setitem frame abs_column c1 = Ok frame1 ∧
    getitem frame1 column_name = Ok sel2 ∧
    apply_correction (values_to_rename self) sel2 = Ok c2 ∧
    setitem frame1 column_name c2 = Ok frame2 ∧
    self' = set_df (Some frame2) self.
Proof.
  cbv [apply_corrections mbind method_bind outcome_bind get_self call assign].
  destruct (df self) as [frame|]; simpl; [|done].
  destruct (getitem frame abs_column) as [sel1| |] eqn:Hget1; [|done..].
  destruct (selection_abs sel1) as [c1| |] eqn:Habs; [|done..].
  destruct (setitem frame abs_column c1) as [frame1| |] eqn:Hset1; [|done..]. simpl.
  destruct (getitem frame1 column_name) as [sel2| |] eqn:Hget2; [|done..].
  destruct (apply_correction (values_to_rename self) sel2) as [c2| |] eqn:Hcorr; [|done..].
  destruct (setitem frame1 column_name c2) as [frame2| |] eqn:Hset2; [|done..].
  intros [= <-]. rewrite set_df_twice. by exists frame, sel1, c1, frame1, sel2, c2, frame2.
Qed.

Lemma getitem_one d label s : select label d = [s] → getitem d label = Ok (OneSeries s).
Proof. unfold getitem. by intros ->. Qed.

(** The target column after a call that returns: the correction applied to
    each of its cells. *)
Lemma apply_corrections_target column_name abs_column self self' frame s :
  df self = Some frame → select column_name frame = [s] → column_name ≠ abs_column →
  apply_corrections column_name abs_column self = (Ok (), self') →
  ∃ frame', df self' = Some frame' ∧
    select column_name frame' = [series_apply (correct_value (values_to_rename self)) s].
Proof.
  intros Hdf Hsel Hne Hrun.
  apply apply_corrections_ok in Hrun
    as (frame0 & sel1 & c1 & frame1 & sel2 & c2 & frame2 & Hdf' & Hget1 & Habs & Hset1 & Hget2 & Hcorr & Hset2 & ->).
  rewrite Hdf in Hdf'. injection Hdf' as <-.
  destruct (setitem_getitem _ _ _ _ Hget1 (selection_abs_shape _ _ Habs)) as (Hset1' & (_ & _ & Hsame1) & _).
  rewrite Hset1 in Hset1'. injection Hset1' as ->.
  rewrite (getitem_one _ _ s) in Hget2.
  2:{ rewrite Hsame1; [done|]. by intros ->%list_elem_of_singleton. }
  injection Hget2 as <-. simpl in Hcorr. injection Hcorr as <-.
  destruct (setitem_getitem (replace_columns abs_column (selected c1) frame) column_name
              (OneSeries s) (OneSeries (series_apply (correct_value (values_to_rename self)) s)))
    as (Hset2' & _ & Hsel2).
  { apply getitem_one. rewrite Hsame1; [done|]. by intros ->%list_elem_of_singleton. }
  { simpl. unfold series_apply. by rewrite length_fmap. }
  rewrite Hset2 in Hset2'. injection Hset2' as ->.
  eexists. split; [done|]. apply Hsel2.
Qed.

Lemma correct_value_key m k v : m !! k = Some v → correct_value m (CStr k) = CStr v.
Proof. intros H. simpl. by rewrite H. Qed.

Lemma correct_value_other m k : m !! k = None → correct_value m (CStr k) = CStr k.
Proof. intros H. simpl. by rewrite H. Qed.

Lemma correct_value_idempotent m :
  (∀ c, correct_value m (correct_value m c) = correct_value m c) ↔ canonical_closed m.
Proof.
  split.
  - intros Hidem k v Hk. specialize (Hidem (CStr k)).
    rewrite (correct_value_key m k v Hk) in Hidem. simpl in Hidem.
    destruct (m !! v) as [w|]; [right|by left]. simpl in Hidem. congruence.
  - intros Hclosed [|k| |]; try done.
    destruct (m !! k) as [v|] eqn:Hk.
    + rewrite (correct_value_key m k v Hk).
      destruct (Hclosed k v Hk) as [Hv|Hv].
      * by apply correct_value_other.
      * by apply correct_value_key.
    + by rewrite !(correct_value_other m k Hk).
Qed.

(** C5, amended.  A call of [apply_corrections] that returns has applied
    the correction to every cell of the target column.  The correction of a
    value is total: a key of the mapping is replaced by its canonical form,
    every other value (a string that is no key, or a cell that is no string)
    passes through unchanged.  Applying it twice equals applying it once
    exactly when no canonical form of the mapping is itself a key with
    another canonical form; then the same holds of the correction of a whole
    column. *)
Theorem value_correction_total_idempotent (m : gmap string string) :
  (∀ self self' frame column_name abs_column s,
     values_to_rename self = m → df self = Some frame →
     select column_name frame = [s] → column_name ≠ abs_column →
     apply_corrections column_name abs_column self = (Ok (), self') →
     ∃ frame', df self' = Some frame' ∧
       select column_name frame' = [series_apply (correct_value m) s]) ∧
  (∀ k v, m !! k = Some v → correct_value m (CStr k) = CStr v) ∧
  (∀ k, m !! k = None → correct_value m (CStr k) = CStr k) ∧
  (∀ c, (∀ k, c ≠ CStr k) → correct_value m c = c) ∧
  ((∀ c, correct_value m (correct_value m c) = correct_value m c) ↔ canonical_closed m) ∧
  (canonical_closed m →
   ∀ s, series_apply (correct_value m) (series_apply (correct_value m) s)
        = series_apply (correct_value m) s).
Proof.
  split_and!.
  - intros self self' frame column_name abs_column s <- Hdf Hsel Hne Hrun.
    by eapply apply_corrections_target.
  - apply correct_value_key.
  - apply correct_value_other.
  - intros [|k| |] Hc; try done. by destruct (Hc k).
  - apply correct_value_idempotent.
  - intros Hclosed s. unfold series_apply. rewrite <-list_fmap_compose.
    apply list_fmap_ext. intros _ c _. simpl. by apply correct_value_idempotent.
Qed.

End ValueCorrection.

(** The mapping of config.py has no canonical form among its keys. *)
Lemma shipped_mapping_closed :
  canonical_closed (FieldDataProcessor.values_to_rename Examples.field_processor).
Proof.
  intros k v. simpl. rewrite !lookup_insert, lookup_empty.
  repeat case_decide; intros [= <-]; by left.
Qed.

Lemma value_correction_witness :
  canonical_closed (FieldDataProcessor.values_to_rename Examples.field_processor) ∧
  series_apply (FieldDataProcessor.correct_value (FieldDataProcessor.values_to_rename Examples.field_processor))
    [CStr "wheat"; CStr "tea"; CFloat 0.5%float]
  = series_apply (FieldDataProcessor.correct_value (FieldDataProcessor.values_to_rename Examples.field_processor))
      [CStr "wheatn"; CStr "teaa"; CFloat 0.5%float].
Proof.
  split; [apply shipped_mapping_closed|].
  pose proof (value_correction_total_idempotent
                (FieldDataProcessor.values_to_rename Examples.field_processor))
    as (_ & _ & _ & _ & _ & H).
  exact (H shipped_mapping_closed [CStr "wheatn"; CStr "teaa"; CFloat 0.5%float]).
Defined.

(** With a mapping that sends "a" to "b" and "b" to "c", a second correction
    changes what the first one produced, for a value and for the column of a
    processor. *)
Lemma value_correction_not_idempotent :
  FieldDataProcessor.correct_value Examples.chained
    (FieldDataProcessor.correct_value Examples.chained (CStr "a"))
  ≠ FieldDataProcessor.correct_value Examples.chained (CStr "a") ∧
  let once := FieldDataProcessor.apply_corrections "Crop_type" "Elevation" Examples.chained_processor in
  let twice := FieldDataProcessor.apply_corrections "Crop_type" "Elevation" once.2 in
  once.1 = Ok () ∧ twice.1 = Ok () ∧
  select "Crop_type" <$> FieldDataProcessor.df once.2 = Some [[CStr "b"]] ∧
  select "Crop_type" <$> FieldDataProcessor.df twice.2 = Some [[CStr "c"]].
Proof. split; [by vm_compute|]. by vm_compute. Qed.

(* ===================================================================== *)
(** * Message parsing *)
(* ===================================================================== *)
Section MessageParsing.
Import WeatherDataProcessor.
Context (lib : Libraries).

Lemma next_not_none_first groups text :
  first_group groups text → next_not_none groups = Ok text.
Proof. intros (n & rest & ->). by induction n. Qed.

Lemma next_not_none_all_none groups :
  Forall (λ g, g = None) groups → next_not_none groups = Raise StopIteration.
Proof. induction 1 as [|g groups -> _ IH]; done. Qed.

(** A group list has a first group that is not [None], or none at all. *)
Lemma first_group_or_none groups :
  (∃ text, first_group groups text) ∨ Forall (λ g, g = None) groups.
Proof.
  induction groups as [|[text|] groups IH].
  - right. constructor.
  - left. by exists text, 0, groups.
  - destruct IH as [(text & n & rest & ->)|IH].
    + left. by exists text, (S n), rest.
    + right. by constructor.
Qed.

(** Items whose pattern does not match are passed over. *)
Lemma extract_from_skip before items message :
  (∀ k p, (k, p) ∈ before → re_search lib p message = Ok None) →
  extract_from lib (before ++ items) message = extract_from lib items message.
Proof.
  induction before as [|[k p] before IH]; intros Hnone; [done|].
  simpl. rewrite (Hnone k p) by left. simpl. apply IH. intros k' p' Hin.
  apply (Hnone k' p'). by right.
Qed.

(** The loop stops at the first item whose pattern matches. *)
Lemma extract_from_first before key pattern after message groups :
  (∀ k p, (k, p) ∈ before → re_search lib p message = Ok None) →
  re_search lib pattern message = Ok (Some groups) →
  extract_from lib (before ++ (key, pattern) :: after) message
  = (value ← next_not_none groups ≫= parse_float lib; Ok (Some key, Some value)).
Proof.
  intros Hnone Hmatch. rewrite extract_from_skip by done. simpl. by rewrite Hmatch.
Qed.

(** The loop stops, too, at the first item whose search raises. *)
Lemma extract_from_raise before key pattern after message e :
  (∀ k p, (k, p) ∈ before → re_search lib p message = Ok None) →
  re_search lib pattern message = Raise e →
  extract_from lib (before ++ (key, pattern) :: after) message = Raise e.
Proof.
  intros Hnone Hraise. rewrite extract_from_skip by done. simpl. by rewrite Hraise.
Qed.


(** C9.  When the first rule whose pattern matches captured no group that
    is not [None], [extract_measurement] raises [StopIteration]; when the
    first such group does not read as a float, it raises [ValueError]; and
    when the search of a rule raises (the pattern is no regular expression,
    or the message no string) before any pattern matched, it raises what the
    search raised: none of these cases returns [(None, None)].  When every
    search returns, and every pattern that matches the message captures a
    group that is not [None] and whose first such group reads as a float,
    the call returns. *)
Theorem extract_measurement_partial self message :
  (∀ before key pattern after,
     patterns self = before ++ (key, pattern) :: after →
     (∀ k p, (k, p) ∈ before → re_search lib p message = Ok None) →
     (∀ groups, re_search lib pattern message = Ok (Some groups) →
        (Forall (λ g, g = None) groups →
         extract_measurement lib self message = Raise StopIteration) ∧
        (∀ text, first_group groups text → float_of_str lib text = None →
         ∃ msg, extract_measurement lib self message = Raise (ValueError msg))) ∧
     (∀ e, re_search lib pattern message = Raise e →
        extract_measurement lib self message = Raise e)) ∧
  ((∀ k p, (k, p) ∈ patterns self → ∃ found, re_search lib p message = Ok found) →
   (∀ k p groups, (k, p) ∈ patterns self → re_search lib p message = Ok (Some groups) →
      ∃ text v, first_group groups text ∧ float_of_str lib text = Some v) →
   ∃ kind value, extract_measurement lib self message = Ok (kind, value)).
Proof.
  unfold extract_measurement. split.
  - intros before key pattern after -> Hnone. split.
    + intros groups Hmatch.
      rewrite (extract_from_first _ _ _ _ _ groups) by done. split.
      * intros Hall. by rewrite next_not_none_all_none.
      * intros text Hfirst Hv. rewrite (next_not_none_first _ _ Hfirst). simpl.
        unfold parse_float. rewrite Hv. by eexists.
    + intros e Hraise. by apply extract_from_raise.
  - induction (patterns self) as [|[k p] items IH]; intros Hreturns Hpre; simpl.
    + by exists None, None.
    + destruct (Hreturns k p) as [found Hfound]; [by left|]. rewrite Hfound. simpl.
      destruct found as [groups|].
      * destruct (Hpre k p groups) as (text & v & Hfirst & Hv); [by left|done|].
        rewrite (next_not_none_first _ _ Hfirst). simpl. unfold parse_float. rewrite Hv.
        by exists (Some k), (Some v).
      * apply IH.
        -- intros k' p' Hin. apply (Hreturns k' p'). by right.
        -- intros k' p' groups' Hin. apply (Hpre k' p' groups'). by right.
Qed.

End MessageParsing.

(* ===================================================================== *)
(** * The data source adapter *)
(* ===================================================================== *)
Section Adapter.
Context (lib : Libraries).

Lemma empty_nrows frame : empty frame = true ↔ nrows frame = 0.
Proof.
  unfold empty, columns. destruct frame as [|[l s] frame]; simpl; [done|].
  rewrite !orb_false_r. by destruct s.
Qed.

(** C7.  When the connection opens and the query executes, [query_data]
    raises the error of an empty result (a [ValueError], with the message of
    the source) if the table has no row, and returns the table as it is if
    it has at least one. *)
Theorem query_data_empty_result engine sql_query frame :
  connect lib engine = Ok () →
  read_sql_query lib engine sql_query = Ok frame →
  (nrows frame = 0 →
   query_data lib engine sql_query = Raise (ValueError "The query returned an empty DataFrame.")) ∧
  (0 < nrows frame → query_data lib engine sql_query = Ok frame).
Proof.
  intros Hconn Hread. unfold query_data. rewrite Hconn. simpl. rewrite Hread. simpl.
  split; intros Hrows.
  - apply empty_nrows in Hrows. by rewrite Hrows.
  - destruct (empty frame) eqn:Hempty; [|done].
    apply empty_nrows in Hempty. lia.
Qed.

(** A failure of the connection or of the execution propagates as it is. *)
Lemma query_data_propagates engine sql_query e :
  connect lib engine = Raise e ∨
  (connect lib engine = Ok () ∧ read_sql_query lib engine sql_query = Raise e) →
  query_data lib engine sql_query = Raise e.
Proof.
  unfold query_data. intros [Hconn|[Hconn Hread]]; rewrite Hconn; simpl.
  - by destruct (is_ValueError e).
  - rewrite Hread. simpl. by destruct (is_ValueError e).
Qed.

End Adapter.

(* ===================================================================== *)
(** * Ingest and enrichment *)
(* ===================================================================== *)
Section IngestAndJoin.
Import FieldDataProcessor.
Context (lib : Libraries).

Lemma config_params_query_data :
  Config.dict_getattr "query_data"
  = Raise (AttributeError "'dict' object has no attribute 'query_data'").
Proof. by vm_compute. Qed.

(** C3 (what the code does).  [ingest_sql_data] connects, and then looks
    [query_data] up as an attribute of the dict [config_params], which has
    none: as soon as the connection succeeds the call raises
    [AttributeError], with the engine stored and no table.  No call returns,
    and the processor's table is never assigned. *)
Theorem ingest_sql_data_never_queries self :
  (∀ created, create_db_engine lib (db_path self) = Ok created →
     ingest_sql_data lib self
     = (Raise (AttributeError "'dict' object has no attribute 'query_data'"),
        set_engine (Some created) self)) ∧
  (∀ e, create_db_engine lib (db_path self) = Raise e →
     ingest_sql_data lib self = (Raise e, self)) ∧
  (∀ result, (ingest_sql_data lib self).1 ≠ Ok result) ∧
  df (ingest_sql_data lib self).2 = df self.
Proof.
  cbv [ingest_sql_data mbind method_bind get_self call assign].
  rewrite config_params_query_data.
  split_and!.
  - by intros created ->.
  - by intros e ->.
  - intros result. by destruct (create_db_engine lib (db_path self)).
  - by destruct (create_db_engine lib (db_path self)).
Qed.

Lemma getattr_weather_map_data self :
  getattr self "weather_map_data"
  = Raise (AttributeError "'FieldDataProcessor' object has no attribute 'weather_map_data'").
Proof. by vm_compute. Qed.

(** C6 (what the code does).  [weather_station_mapping] reads the attribute
    [weather_map_data], which [__init__] never binds (it binds
    [weather_mapping_csv]): the call raises [AttributeError] before it
    fetches or joins anything, and the processor is left as it was. *)
Theorem weather_station_mapping_never_joins self :
  (∃ msg, weather_station_mapping lib self = (Raise (AttributeError msg), self)) ∧
  (is_Some (df self) →
   weather_station_mapping lib self
   = (Raise (AttributeError "'FieldDataProcessor' object has no attribute 'weather_map_data'"),
      self)).
Proof.
  cbv [weather_station_mapping mbind method_bind get_self call assign].
  destruct (df self) as [frame|]; simpl.
  - rewrite getattr_weather_map_data. simpl. split; [by eexists|done].
  - split; [by eexists|]. by intros [? [=]].
Qed.

End IngestAndJoin.

(* ===================================================================== *)
(** * The report *)
(* ===================================================================== *)
Section Report.
Import Main.
Context (lib : Libraries).

Lemma rejected_not_rejected : rejected ≠ not_rejected.
Proof. done. Qed.

(** C8.  What [print_ttest_results] prints is a function of its arguments:
    a heading, the p-value, and a verdict, which is the rejection exactly
    when [p_val < alpha] holds strictly, and the non-rejection otherwise. *)
Theorem print_ttest_results_verdict station_id measurement p_val alpha stdout :
  (∃ heading p_line verdict,
     print_ttest_results lib station_id measurement p_val alpha stdout
     = stdout ++ [heading; p_line; verdict]) ∧
  (last (print_ttest_results lib station_id measurement p_val alpha stdout) = Some rejected
   ↔ (p_val <? alpha)%float = true) ∧
  (last (print_ttest_results lib station_id measurement p_val alpha stdout) = Some not_rejected
   ↔ (p_val <? alpha)%float = false).
Proof.
  unfold print_ttest_results.
  destruct (p_val <? alpha)%float; rewrite <-!app_assoc; simpl;
    (split_and!; [by eexists _, _, _|..]); rewrite last_app; simpl;
    split; try done; intros [= H]; by destruct rejected_not_rejected.
Qed.

End Report.

(* ===================================================================== *)
(** * Sorting keys that compare *)
(* ===================================================================== *)
Section SortingComparable.
Context {A} (R : relation A) `{!∀ x y, Decision (R x y)}.
Context (P : A → Prop).
Hypothesis comparable : ∀ x y, P x → P y → R x y ∨ R y x.

(** A run on the stack of the merge sort: sorted, and of elements that
    compare. *)
Local Abbreviation sorted_run := (from_option (λ l, Sorted R l ∧ Forall P l) True).







End SortingComparable.

(* ===================================================================== *)
(** * Aggregation *)
(* ===================================================================== *)
Section Aggregation.
Import WeatherDataProcessor.



Lemma elem_of_sorted_keys x l : x ∈ sorted_keys l ↔ x ∈ l.
Proof. unfold sorted_keys. rewrite merge_sort_Permutation. apply elem_of_remove_dups. Qed.

(** The rows of a group all have their keys, so that dropping the rows with
    a missing key does not change the group. *)
Lemma group_values_keyed rows a b :
  isna a = false → isna b = false →
  group_values (filter (λ r, keyed r = true) rows) a b = group_values rows a b.
Proof.
  intros Ha Hb. unfold group_values. do 2 f_equal.
  rewrite list_filter_filter. apply list_filter_iff. intros [[x y] v]. simpl.
  unfold keyed. simpl. split; [by intros [? _]|].
  intros [-> ->]. by rewrite Ha, Hb.
Qed.

(** The entries of the series of means: one value per pair of keys that a
    row bears, the mean of the numbers of that group. *)
Lemma elem_of_group_means rows a b v :
  (a, b, v) ∈ group_means rows ↔
  (∃ w, (a, b, w) ∈ rows) ∧ isna a = false ∧ isna b = false ∧
  v = mean (group_values rows a b).
Proof.
  unfold group_means. rewrite list_elem_of_bind. split.
  - intros (a' & Hin & Ha'). apply list_elem_of_bind in Hin as (b' & Hin & Hb').
    apply list_elem_of_singleton in Hin. injection Hin as -> -> ->.
    apply elem_of_sorted_keys, list_elem_of_fmap in Hb' as ([x y] & -> & Hb').
    apply list_elem_of_fmap in Hb' as ([[x' y'] w] & [= -> ->] & Hb').
    apply list_elem_of_filter in Hb' as [Hx Hrow]. simpl in *. subst a'.
    apply list_elem_of_filter in Hrow as [Hkeyed Hrow].
    unfold keyed in Hkeyed. simpl in Hkeyed.
    apply andb_true_iff in Hkeyed as [Ha%negb_true_iff Hb%negb_true_iff].
    split_and!; [by exists w|done..|]. by rewrite group_values_keyed.
  - intros ((w & Hrow) & Ha & Hb & ->).
    assert ((a, b, w) ∈ filter (λ r, keyed r = true) rows) as Hrow'.
    { apply list_elem_of_filter. split; [|done]. unfold keyed. simpl. by rewrite Ha, Hb. }
    exists a. split.
    + apply list_elem_of_bind. exists b. split.
      * rewrite group_values_keyed by done. by apply list_elem_of_singleton.
      * apply elem_of_sorted_keys.
        apply (list_elem_of_fmap_2' _ _ (a, b)); [|done].
        apply (list_elem_of_fmap_2' _ _ (a, b, w)); [|done].
        apply list_elem_of_filter. by split.
    + apply elem_of_sorted_keys.
      apply (list_elem_of_fmap_2' _ _ (a, b)); [|done].
      by apply (list_elem_of_fmap_2' _ _ (a, b, w)).
Qed.





Lemma elem_of_outer_keys (series : list (cell * cell * float)) a :
  a ∈ series.*1.*1 ↔ ∃ k v, (a, k, v) ∈ series.
Proof.
  split.
  - intros ([a' k] & -> & ([[a'' k'] v] & ? & ?)%list_elem_of_fmap)%list_elem_of_fmap.
    simplify_eq/=. eauto.
  - intros (k & v & Hin). apply (list_elem_of_fmap_2' _ _ (a, k)); [|done].
    by apply (list_elem_of_fmap_2' _ _ (a, k, v)).
Qed.

Lemma elem_of_inner_keys (series : list (cell * cell * float)) k :
  k ∈ series.*1.*2 ↔ ∃ a v, (a, k, v) ∈ series.
Proof.
  split.
  - intros ([a k'] & -> & ([[a' k''] v] & ? & ?)%list_elem_of_fmap)%list_elem_of_fmap.
    simplify_eq/=. eauto.
  - intros (a & v & Hin). apply (list_elem_of_fmap_2' _ _ (a, k)); [|done].
    by apply (list_elem_of_fmap_2' _ _ (a, k, v)).
Qed.






Lemma elem_of_zip_rows a b v stations kinds values :
  (a, b, v) ∈ zip_rows stations kinds values →
  (∃ x, x ∈ stations ∧ a = key x) ∧ (∃ y, y ∈ kinds ∧ b = key y).
Proof.
  revert kinds values. induction stations as [|x stations IH]; intros [|y kinds] [|z values];
    simpl; try by intros ?%elem_of_nil.
  intros [[= -> -> ->]|Hin]%elem_of_cons.
  - split; eexists; (split; [by left|done]).
  - destruct (IH _ _ Hin) as [(x' & ? & ->) (y' & ? & ->)].
    split; eexists; (split; [by right|done]).
Qed.




End Aggregation.

(* ===================================================================== *)
(** * The statements on the sample data *)
(* ===================================================================== *)

Lemma rename_columns_witness :
  ∃ frame',
    FieldDataProcessor.rename_columns Examples.loaded
    = (Ok (), FieldDataProcessor.set_df (Some frame') Examples.loaded) ∧
    select "Crop_type" frame' = [[CStr "wheatn"; CStr "tea"]] ∧
    select "Annual_yield" frame' = [[CFloat 0.5%float; CFloat 0.25%float]] ∧
    FieldDataProcessor.rename_columns (FieldDataProcessor.set_df (Some frame') Examples.loaded)
    = (Ok (), Examples.loaded).
Proof.
  destruct (rename_columns_true_swap Examples.loaded Examples.survey
              "Annual_yield" "Crop_type" [("Crop_type", "Annual_yield")])
    as (frame' & Hrun & HB & HA & _ & _ & _ & Htwice).
  - reflexivity.
  - reflexivity.
  - apply (bool_decide_unpack _). by vm_compute.
  - apply (bool_decide_unpack _). by vm_compute.
  - exists frame'. by split_and!.
Defined.

Lemma apply_corrections_witness :
  ∃ frame',
    FieldDataProcessor.df
      (FieldDataProcessor.apply_corrections "Annual_yield" "Elevation" Examples.loaded).2
    = Some frame' ∧
    columns frame' = ["Field_ID"; "Elevation"; "Annual_yield"; "Crop_type"] ∧
    nrows frame' = 2 ∧
    select "Field_ID" frame' = [[CInt 40734; CInt 30629]] ∧
    select "Crop_type" frame' = [[CFloat 0.5%float; CFloat 0.25%float]].
Proof.
  destruct (apply_corrections_frame Examples.loaded Examples.survey "Annual_yield" "Elevation")
    as (frame' & Hdf & Hcols & Hrows & _ & Hother & _).
  - reflexivity.
  - exists frame'. split_and!; [done..| |]; by rewrite Hother.
Defined.

Example apply_corrections_sample :
  (FieldDataProcessor.apply_corrections "Annual_yield" "Elevation" Examples.loaded).1 = Ok () ∧
  FieldDataProcessor.df
    (FieldDataProcessor.apply_corrections "Annual_yield" "Elevation" Examples.loaded).2
  = Some [("Field_ID", [CInt 40734; CInt 30629]);
          ("Elevation", [CFloat 786.0558%float; CFloat 674.3341%float]);
          ("Annual_yield", [CStr "wheat"; CStr "tea"]);
          ("Crop_type", [CFloat 0.5%float; CFloat 0.25%float])].
Proof. by vm_compute. Qed.


Lemma extract_measurement_raises_witness :
  WeatherDataProcessor.extract_measurement Examples.library Examples.weather_processor
    (CStr "Temperature: high")
  = Raise StopIteration ∧
  (∃ msg, WeatherDataProcessor.extract_measurement Examples.library Examples.weather_processor
            (CStr "Temperature: 1.2.3 C")
          = Raise (ValueError msg)) ∧
  (∃ kind value,
     WeatherDataProcessor.extract_measurement Examples.library Examples.weather_processor
       (CStr "Rainfall: 5.0 mm")
     = Ok (kind, value)).
Proof.
  destruct (extract_measurement_partial Examples.library Examples.weather_processor
              (CStr "Temperature: high")) as [Hstop _].
  destruct (extract_measurement_partial Examples.library Examples.weather_processor
              (CStr "Temperature: 1.2.3 C")) as [Hvalue _].
  destruct (extract_measurement_partial Examples.library Examples.weather_processor
              (CStr "Rainfall: 5.0 mm")) as [_ Hreturns].
  split_and!.
  - destruct (Hstop [("Rainfall", "Rainfall: ")] "Temperature" "Temperature: " [])
      as [Hmatch _].
    + reflexivity.
    + intros k p [= -> ->]%list_elem_of_singleton. reflexivity.
    + destruct (Hmatch [None]) as [Hall _]; [reflexivity|].
      apply Hall. by repeat constructor.
  - destruct (Hvalue [("Rainfall", "Rainfall: ")] "Temperature" "Temperature: " [])
      as [Hmatch _].
    + reflexivity.
    + intros k p [= -> ->]%list_elem_of_singleton. reflexivity.
    + destruct (Hmatch [Some "1.2.3"]) as [_ Hbad]; [reflexivity|].
      apply (Hbad "1.2.3"); [by exists 0, []|reflexivity].
  - apply Hreturns.
    + intros k p Hin.
      apply elem_of_cons in Hin as [[= -> ->]|[= -> ->]%list_elem_of_singleton];
        eexists; reflexivity.
    + intros k p groups Hin.
      apply elem_of_cons in Hin as [[= -> ->]|[= -> ->]%list_elem_of_singleton].
      * intros [= <-]. exists "5.0", 5%float. split; [by exists 0, []|reflexivity].
      * intros [=].
Defined.

(** A pattern that is no regular expression: the search raises before there
    is any match, so every pattern that matches captures a number, and yet
    the call raises. *)
Lemma extract_measurement_pattern_error :
  (∀ k p groups,
     (k, p) ∈ WeatherDataProcessor.patterns Examples.unbalanced_processor →
     re_search Examples.library p (CStr "no reading") = Ok (Some groups) →
     ∃ text v, first_group groups text ∧ float_of_str Examples.library text = Some v) ∧
  WeatherDataProcessor.extract_measurement Examples.library Examples.unbalanced_processor
    (CStr "no reading")
  = Raise (ReError "missing ), unterminated subpattern at position 0").
Proof.
  split; [|reflexivity].
  intros k p groups [= -> ->]%list_elem_of_singleton. intros [=].
Qed.

Lemma query_data_witness :
  query_data Examples.library {| url := "sqlite:///farm-survey.db" |} "SELECT * FROM geographic_features"
  = Ok Examples.survey.
Proof.
  destruct (query_data_empty_result Examples.library {| url := "sqlite:///farm-survey.db" |}
              "SELECT * FROM geographic_features" Examples.survey) as [_ Hrows].
  - reflexivity.
  - reflexivity.
  - apply Hrows. simpl. lia.
Defined.

(** An empty result, with its column labels or without any column, is an
    error. *)
Example query_data_no_rows :
  let lib := {| create_engine := create_engine Examples.library;
                connect := connect Examples.library;
                read_sql_query := λ _ _, Ok [("Field_ID", []); ("Elevation", [])];
                read_csv := read_csv Examples.library;
                merge := merge Examples.library;
                dict_builtin := dict_builtin Examples.library;
                re_compile_error := re_compile_error Examples.library;
                pattern_search := pattern_search Examples.library;
                float_of_str := float_of_str Examples.library;
                format_int := format_int Examples.library;
                format_5f := format_5f Examples.library |} in
  query_data lib {| url := "sqlite:///farm-survey.db" |} "SELECT * FROM geographic_features WHERE 0"
  = Raise (ValueError "The query returned an empty DataFrame.").
Proof. reflexivity. Qed.

(** Ingest on the processor of config.py, with a source that connects and
    whose query would return the two rows of the sample: the call raises,
    and no table is stored. *)
Example ingest_sql_data_sample :
  FieldDataProcessor.init Config.config_params = Ok Examples.field_processor ∧
  query_data Examples.library {| url := "sqlite:///farm-survey.db" |}
    (FieldDataProcessor.sql_query Examples.field_processor) = Ok Examples.survey ∧
  let run := FieldDataProcessor.ingest_sql_data Examples.library Examples.field_processor in
  run.1 = Raise (AttributeError "'dict' object has no attribute 'query_data'") ∧
  FieldDataProcessor.df run.2 = None ∧
  FieldDataProcessor.engine run.2 = Some {| url := "sqlite:///farm-survey.db" |}.
Proof. by vm_compute. Qed.

(** The enrichment step on the loaded processor: it raises before any
    fetch, and so does the whole of [process], at its first step. *)
Example weather_station_mapping_sample :
  FieldDataProcessor.weather_station_mapping Examples.library Examples.loaded
  = (Raise (AttributeError "'FieldDataProcessor' object has no attribute 'weather_map_data'"),
     Examples.loaded) ∧
  (FieldDataProcessor.process Examples.library Examples.field_processor).1
  = Raise (AttributeError "'dict' object has no attribute 'query_data'").
Proof. by vm_compute. Qed.

(** The verdict at the threshold, below it, and for a p-value that is not a
    number. *)
Example print_ttest_results_sample :
  Main.print_ttest_results Examples.library 0 "Temperature" 0.04 0.05 []
  = ["T-test results for station 0 and measurement 'Temperature':";
     "  p-value: 0.04000";
     "  Null hypothesis rejected: There is a significant difference."] ∧
  last (Main.print_ttest_results Examples.library 0 "Temperature" 0.05 0.05 [])
  = Some Main.not_rejected ∧
  last (Main.print_ttest_results Examples.library 0 "Temperature" PrimFloat.nan 0.05 [])
  = Some Main.not_rejected.
Proof. by vm_compute. Qed.


(** The compensated sum at work: the mean of 0.1, 0.2 and 0.3, where a
    plain sum in row order gives 0.20000000000000004. *)
Example mean_compensated :
  mean [0.1; 0.2; 0.3]%float = 0.19999999999999998%float ∧
  mean [10; 20; 30]%float = 20%float ∧
  mean [PrimFloat.infinity; 1]%float = PrimFloat.infinity.
Proof. by vm_compute. Qed.

(** config.py has no [regex_patterns]: no weather processor can be built
    from it. *)
Example weather_processor_init :
  WeatherDataProcessor.init Config.config_params = Raise (KeyError "regex_patterns").
Proof. reflexivity. Qed.

(** The table of the sample, as pandas prints it: kinds in columns, sorted,
    and [nan] where a station has no row of a kind. *)
Example calculate_means_sample :
  WeatherDataProcessor.calculate_means Examples.weather_processor
  = Ok (Some {| index := [CStr "S1"; CStr "S2"];
                pivot_columns := [CStr "Rainfall"; CStr "Temperature"];
                data := [[PrimFloat.nan; 20%float]; [5%float; PrimFloat.nan]] |}).
Proof. by vm_compute. Qed.

(* ===================================================================== *)
(** * The placeholder label and the edge cases of the relabelling *)
(* ===================================================================== *)
Section Placeholder.
Import FieldDataProcessor.

(** What the loop returns is one of the names it tried, and it tried every
    shorter one. *)
Lemma temp_name_loop_tries fuel cols temp_name t :
  temp_name_loop fuel temp_name cols = Ok t →
  ∃ n, n ≤ fuel ∧ t = append_underscores n temp_name ∧ (t ∉ cols) ∧
       (∀ m, m < n → append_underscores m temp_name ∈ cols).
Proof.
  revert temp_name. induction fuel as [|fuel IH]; intros temp_name; simpl.
  - case_decide as Hin; [done|]. intros [= <-]. exists 0. split_and!; [done..|lia].
  - case_decide as Hin.
    + intros Hloop. apply IH in Hloop as (n & Hn & -> & Hout & Hall).
      exists (S n). split_and!; [lia|done..|].
      intros [|m] Hm; [done|]. apply Hall. lia.
    + intros [= <-]. exists 0. split_and!; [lia|done..|lia].
Qed.

Lemma prefix_append (s t u : string) :
  String.prefix s t = true → String.prefix s (t +:+ u) = true.
Proof.
  revert t. induction s as [|a s IH]; intros [|b t]; simpl; try done.
  - by destruct u.
  - destruct (ascii_dec a b); [apply IH|done].
Qed.

Lemma prefix_append_underscores n s t :
  String.prefix s t = true → String.prefix s (append_underscores n t) = true.
Proof.
  revert t. induction n as [|n IH]; intros t Hst; simpl; [done|].
  by apply IH, prefix_append.
Qed.

(** X1.  The placeholder loop ends within as many turns as the frame has
    columns.  The label it returns is the base name followed by underscores
    only, it labels no column, and it is the shortest such name: every
    shorter candidate labels a column. *)
Theorem temp_name_shortest_fresh (cols : list string) :
  ∃ n, n ≤ length cols ∧
    temp_name_loop (length cols) "__temp_name_for_swap__" cols
    = Ok (append_underscores n "__temp_name_for_swap__") ∧
    (append_underscores n "__temp_name_for_swap__" ∉ cols) ∧
    String.prefix "__temp_name_for_swap__" (append_underscores n "__temp_name_for_swap__") = true ∧
    (∀ m, m < n → append_underscores m "__temp_name_for_swap__" ∈ cols).
Proof.
  destruct (temp_name_fresh cols "__temp_name_for_swap__") as (t & Hloop & _).
  pose proof Hloop as Htries. apply temp_name_loop_tries in Htries as (n & Hn & -> & Hout & Hall).
  exists n. split_and!; [done..| |done].
  by apply prefix_append_underscores.
Qed.

(** What [rename_columns] does as soon as the first label is not a name the
    placeholder loop can return. *)
Lemma rename_columns_relabel_prefix self frame A B rest :
  df self = Some frame →
  columns_to_rename self = (A, B) :: rest →
  String.prefix "__temp_name_for_swap__" A = false →
  rename_columns self = (Ok (), set_df (Some (relabel (swap_label A B) frame)) self).
Proof.
  intros Hdf Hcfg HA.
  destruct (temp_name_fresh (columns frame) "__temp_name_for_swap__") as (t & Hloop & Hfresh).
  pose proof Hloop as Htries. apply temp_name_loop_tries in Htries as (n & _ & Ht & _).
  unfold rename_columns, mbind, method_bind, get_self, call, assign.
  rewrite Hcfg, Hdf. simpl. rewrite Hloop. simpl.
  rewrite set_df_twice. do 3 f_equal.
  apply rename_rename_swap; [done|]. intros HtA. rewrite <-HtA, Ht in HA.
  by rewrite prefix_append_underscores in HA.
Qed.

Lemma select_not_elem_of l (frame : DataFrame) : l ∉ columns frame → select l frame = [].
Proof.
  unfold select, columns. induction frame as [|[l' s] frame IH]; [done|].
  rewrite fmap_cons, not_elem_of_cons. simpl. intros [Hne Hout].
  rewrite filter_cons, decide_False by done. by apply IH.
Qed.

(** X2.  When one of the two configured labels is absent from the frame,
    [rename_columns] is a plain rename of the other one: with A absent the
    columns of B become columns of A, with B absent those of A become
    columns of B, and nothing else changes.  This holds whenever A does not
    start with the placeholder's base name.  When A is that base name itself
    and absent, the call returns and leaves every label where it was. *)
Theorem rename_columns_one_label_absent self frame A B rest :
  df self = Some frame →
  columns_to_rename self = (A, B) :: rest →
  (String.prefix "__temp_name_for_swap__" A = false →
   ∃ frame',
     rename_columns self = (Ok (), set_df (Some frame') self) ∧
     frame'.*2 = frame.*2 ∧
     (∀ l, l ≠ A → l ≠ B → select l frame' = select l frame) ∧
     (A ∉ columns frame → select A frame' = select B frame ∧ (A ≠ B → select B frame' = [])) ∧
     (B ∉ columns frame → select B frame' = select A frame ∧ (A ≠ B → select A frame' = []))) ∧
  (A = "__temp_name_for_swap__" → A ∉ columns frame →
   rename_columns self = (Ok (), self)).
Proof.
  intros Hdf Hcfg. split.
  - intros HA. exists (relabel (swap_label A B) frame).
    pose proof (swap_label_inj A B) as Hinj.
    assert (select A (relabel (swap_label A B) frame) = select B frame) as HselA.
    { rewrite <-(swap_label_r A B) at 1. by apply select_relabel. }
    assert (select B (relabel (swap_label A B) frame) = select A frame) as HselB.
    { rewrite <-(swap_label_l A B) at 1. by apply select_relabel. }
    split_and!.
    + by eapply rename_columns_relabel_prefix.
    + apply relabel_data.
    + intros l HlA HlB. rewrite <-(swap_label_other A B l) at 1 by done.
      by apply select_relabel.
    + intros Hout. split; [done|]. intros _. rewrite HselB. by apply select_not_elem_of.
    + intros Hout. split; [done|]. intros _. rewrite HselA. by apply select_not_elem_of.
  - intros -> Hout.
    unfold rename_columns, mbind, method_bind, get_self, call, assign.
    rewrite Hcfg, Hdf. simpl.
    assert (temp_name_loop (length (columns frame)) "__temp_name_for_swap__" (columns frame)
            = Ok "__temp_name_for_swap__") as ->.
    { destruct (length (columns frame)); simpl; by rewrite decide_False. }
    rewrite set_df_twice. f_equal. rewrite <-(set_df_same self) at 2. rewrite Hdf.
    do 2 f_equal. change (rename ?m) with (relabel (λ l, default l (m !! l))).
    rewrite relabel_relabel. rewrite (relabel_ext _ id frame); [by rewrite relabel_id|].
    intros l Hl. simpl.
    assert (l ≠ "__temp_name_for_swap__") as Hne by (by intros ->).
    destruct (decide (l = B)) as [->|HlB].
    + rewrite lookup_insert_eq. simpl. by rewrite lookup_singleton_eq.
    + rewrite lookup_insert_ne, lookup_singleton_ne by done. simpl.
      by rewrite lookup_singleton_ne.
Qed.

(** X3.  [rename_columns] returns exactly when the configuration names a
    pair of labels and a table is loaded.  With an empty configuration it
    raises [IndexError], with a pair but no table [AttributeError]; in both
    cases the processor is left as it was.  The loop never runs out of
    turns. *)
Theorem rename_columns_outcomes self :
  ((rename_columns self).1 = Ok () ↔ columns_to_rename self ≠ [] ∧ is_Some (df self)) ∧
  (columns_to_rename self = [] →
   rename_columns self = (Raise (IndexError "list index out of range"), self)) ∧
  (columns_to_rename self ≠ [] → df self = None →
   rename_columns self
   = (Raise (AttributeError "'NoneType' object has no attribute 'columns'"), self)) ∧
  (rename_columns self).1 ≠ OutOfFuel.
Proof.
  unfold rename_columns, mbind, method_bind, get_self, call, assign.
  destruct (columns_to_rename self) as [|[A B] rest] eqn:Hcfg; simpl.
  { split_and!; [split; [done|by intros [? _]]|done..]. }
  destruct (df self) as [frame|] eqn:Hdf; simpl.
  - destruct (temp_name_fresh (columns frame) "__temp_name_for_swap__") as (t & -> & _).
    simpl. split_and!; [split; [by eauto|done]|done..].
  - split_and!; [split; [done|by intros [_ [? [=]]]]|done..].
Qed.

End Placeholder.

Lemma rename_columns_one_label_absent_witness :
  ∃ frame',
    FieldDataProcessor.rename_columns
      (FieldDataProcessor.set_df (Some [("Field_ID", [CInt 1]); ("Crop_type", [CFloat 0.5%float])])
         Examples.field_processor)
    = (Ok (), FieldDataProcessor.set_df (Some frame') Examples.field_processor) ∧
    select "Annual_yield" frame' = [[CFloat 0.5%float]] ∧
    select "Crop_type" frame' = [].
Proof.
  destruct (rename_columns_one_label_absent
              (FieldDataProcessor.set_df
                 (Some [("Field_ID", [CInt 1]); ("Crop_type", [CFloat 0.5%float])])
                 Examples.field_processor)
              [("Field_ID", [CInt 1]); ("Crop_type", [CFloat 0.5%float])]
              "Annual_yield" "Crop_type" [("Crop_type", "Annual_yield")] eq_refl eq_refl)
    as [Hrename _].
  destruct (Hrename eq_refl) as (frame' & Hrun & _ & _ & HA & _).
  exists frame'. destruct HA as [HA HB].
  - apply (bool_decide_unpack _). by vm_compute.
  - split_and!; [by rewrite Hrun, set_df_twice|done|by apply HB].
Defined.

(* ===================================================================== *)
(** * Failure and repetition of the value correction *)
(* ===================================================================== *)
Section CorrectionsAgain.
Import FieldDataProcessor.

Lemma float_abs_abs f : PrimFloat.abs (PrimFloat.abs f) = PrimFloat.abs f.
Proof.
  apply Prim2SF_inj. rewrite !abs_spec. by destruct (Prim2SF f).
Qed.

(** The absolute value of a cell is a number, and its own absolute value. *)
Lemma abs_cell_fixed c c' :
  abs_cell c = Ok c' → is_number c ∧ is_number c' ∧ abs_cell c' = Ok c'.
Proof.
  destruct c as [| |z|f]; simpl; try done; intros [= <-]; split_and!; try done; simpl.
  - do 2 f_equal. repeat case_decide; lia.
  - by rewrite float_abs_abs.
Qed.

Lemma series_abs_fixed s s' :
  series_abs s = Ok s' → Forall is_number s ∧ Forall is_number s' ∧ series_abs s' = Ok s'.
Proof.
  intros H. apply mapM_outcome_Forall2 in H. unfold series_abs.
  induction H as [|c c' s s' Hc _ (IH1 & IH2 & IH3)]; [done|].
  apply abs_cell_fixed in Hc as (? & ? & Hc). split_and!; [by constructor..|].
  simpl. rewrite Hc. simpl. by rewrite IH3.
Qed.

Lemma selection_abs_fixed sel sel' :
  selection_abs sel = Ok sel' →
  Forall (Forall is_number) (selected sel') ∧ selection_abs sel' = Ok sel'.
Proof.
  destruct sel as [s|cols]; simpl.
  - destruct (series_abs s) as [s'| |] eqn:Hs; [|done..]. intros [= <-].
    apply series_abs_fixed in Hs as (_ & ? & Hs). simpl. rewrite Hs.
    split; [by repeat constructor|done].
  - destruct (mapM series_abs cols) as [cols'| |] eqn:Hc; [|done..]. intros [= <-].
    apply mapM_outcome_Forall2 in Hc. simpl.
    cut (Forall (Forall is_number) cols' ∧ mapM series_abs cols' = Ok cols').
    { intros [? ->]. done. }
    induction Hc as [|s s' cols cols' Hs _ [IH1 IH2]]; [done|].
    apply series_abs_fixed in Hs as (_ & ? & Hs). split; [by constructor|].
    simpl. rewrite Hs. simpl. by rewrite IH2.
Qed.

(** The correction leaves numbers alone. *)
Lemma series_apply_numbers m s :
  Forall is_number s → series_apply (correct_value m) s = s.
Proof.
  unfold series_apply. induction 1 as [|c s Hc _ IH]; [done|].
  rewrite fmap_cons, IH. by destruct c.
Qed.

Lemma apply_correction_numbers m sel sel' :
  Forall (Forall is_number) (selected sel) → apply_correction m sel = Ok sel' → sel' = sel.
Proof.
  destruct sel as [s|cols]; simpl.
  - intros Hnum [= <-]. rewrite Forall_singleton in Hnum. by rewrite series_apply_numbers.
  - intros _. case_decide; [|done]. by intros [= <-].
Qed.

Lemma apply_correction_fixed m sel sel' :
  canonical_closed m → apply_correction m sel = Ok sel' → apply_correction m sel' = Ok sel'.
Proof.
  intros Hclosed. destruct sel as [s|cols]; simpl.
  - intros [= <-]. simpl. do 2 f_equal. unfold series_apply.
    rewrite <-list_fmap_compose. apply list_fmap_ext. intros _ c _. simpl.
    by apply correct_value_idempotent.
  - case_decide as Hempty; [|done]. intros [= <-]. simpl. by rewrite decide_True.
Qed.

Lemma getitem_selected d label sel :
  getitem d label = Ok sel ↔ select label d = selected sel ∧ proper sel.
Proof.
  unfold getitem. destruct (select label d) as [|s [|s2 olds]]; split.
  - done.
  - intros [Hsel Hp]. destruct sel as [?|[|? [|??]]]; simpl in *; try done; lia.
  - by intros [= <-].
  - intros [Hsel Hp]. destruct sel as [?|[|? [|??]]]; simpl in *; try done; try lia.
    by injection Hsel as ->.
  - intros [= <-]. simpl. split; [done|lia].
  - intros [Hsel Hp]. destruct sel as [?|cols]; simpl in *; [done|]. by rewrite Hsel.
Qed.

Lemma same_shape_proper sel sel' : same_shape sel sel' → proper sel → proper sel'.
Proof.
  destruct sel, sel'; simpl; try done. intros Hlen%(f_equal length).
  rewrite !length_fmap in Hlen. lia.
Qed.

Lemma same_shape_refl sel : same_shape sel sel.
Proof. by destruct sel. Qed.

(** Writing back what a label already holds changes nothing. *)
Lemma replace_columns_same label d : replace_columns label (select label d) d = d.
Proof.
  induction d as [|[l s] d IH]; [done|].
  rewrite select_cons. simpl. case_decide; by rewrite IH.
Qed.

Lemma setitem_same d label sel :
  getitem d label = Ok sel → setitem d label sel = Ok d.
Proof.
  intros Hget. destruct (setitem_getitem d label sel sel Hget (same_shape_refl sel)) as (-> & _).
  apply getitem_selected in Hget as [<- _]. by rewrite replace_columns_same.
Qed.

(** A call whose steps all succeed. *)
Lemma apply_corrections_run column_name abs_column self frame sel1 c1 frame1 sel2 c2 frame2 :
  df self = Some frame →
  getitem frame abs_column = Ok sel1 → selection_abs sel1 = Ok c1 →
  setitem frame abs_column c1 = Ok frame1 →
  getitem frame1 column_name = Ok sel2 →
  apply_correction (values_to_rename self) sel2 = Ok c2 →
  setitem frame1 column_name c2 = Ok frame2 →
  apply_corrections column_name abs_column self = (Ok (), set_df (Some frame2) self).
Proof.
  intros Hdf Hget1 Habs Hset1 Hget2 Hcorr Hset2.
  cbv [apply_corrections mbind method_bind outcome_bind get_self call assign].
  rewrite Hdf. simpl. rewrite Hget1, Habs, Hset1. simpl.
  rewrite Hget2, Hcorr, Hset2. by rewrite set_df_twice.
Qed.

(** X5.  With a mapping in which no canonical form is a key of another
    form, a call of [apply_corrections] that returned can be repeated: the
    second call returns too and leaves the processor, table included, as
    the first one left it. *)
Theorem apply_corrections_twice self self' column_name abs_column :
  canonical_closed (values_to_rename self) →
  apply_corrections column_name abs_column self = (Ok (), self') →
  apply_corrections column_name abs_column self' = (Ok (), self').
Proof.
  intros Hclosed Hrun.
  apply apply_corrections_ok in Hrun
    as (frame & sel1 & c1 & frame1 & sel2 & c2 & frame2
        & Hdf & Hget1 & Habs & Hset1 & Hget2 & Hcorr & Hset2 & ->).
  pose proof (selection_abs_shape _ _ Habs) as Hshape1.
  pose proof (apply_correction_shape _ _ _ Hcorr) as Hshape2.
  destruct (setitem_getitem _ _ _ _ Hget1 Hshape1) as (Hset1' & _ & Hsel1).
  rewrite Hset1 in Hset1'. injection Hset1' as ->.
  destruct (setitem_getitem _ _ _ _ Hget2 Hshape2) as (Hset2' & (_ & _ & Hsame2) & Hsel2).
  rewrite Hset2 in Hset2'. injection Hset2' as Hframe2.
  apply getitem_selected in Hget1 as [_ Hproper1].
  pose proof (same_shape_proper _ _ Hshape1 Hproper1) as Hproper1'.
  pose proof Hget2 as [_ Hproper2]%getitem_selected.
  pose proof (same_shape_proper _ _ Hshape2 Hproper2) as Hproper2'.
  destruct (selection_abs_fixed _ _ Habs) as [Hnum Habs'].
  assert (getitem frame2 column_name = Ok c2) as Hget2'.
  { apply getitem_selected. by rewrite Hframe2. }
  assert (getitem frame2 abs_column = Ok c1) as Hget1'.
  { apply getitem_selected. split; [|done].
    destruct (decide (abs_column = column_name)) as [->|Hne].
    - assert (sel2 = c1) as ->.
      { assert (getitem (replace_columns column_name (selected c1) frame) column_name = Ok c1) as H
          by by apply getitem_selected.
        congruence. }
      pose proof (apply_correction_numbers _ _ _ Hnum Hcorr) as ->. by rewrite Hframe2.
    - rewrite Hframe2, Hsame2; [done|]. by intros ->%list_elem_of_singleton. }
  rewrite (apply_corrections_run column_name abs_column _ frame2 c1 c1 frame2 c2 c2 frame2).
  - by rewrite set_df_twice.
  - by destruct self.
  - done.
  - done.
  - by apply setitem_same.
  - done.
  - by eapply apply_correction_fixed.
  - by apply setitem_same.
Qed.

Lemma series_abs_not_numbers s :
  ¬ Forall is_number s → ∃ msg, series_abs s = Raise (TypeError msg).
Proof.
  unfold series_abs. induction s as [|c s IH]; intros Hnot.
  - destruct Hnot. constructor.
  - simpl. destruct c as [|t|z|f]; simpl; [by eexists..| |].
    + destruct IH as [msg ->]; [|by exists msg]. intros Hs. apply Hnot. by constructor.
    + destruct IH as [msg ->]; [|by exists msg]. intros Hs. apply Hnot. by constructor.
Qed.

Lemma select_elem_of l (frame : DataFrame) : l ∈ columns frame ↔ select l frame ≠ [].
Proof.
  split.
  - intros Hin Hsel. unfold select, columns in *.
    apply list_elem_of_fmap in Hin as ([l' s] & Heq & Hin). simpl in Heq. subst l'.
    apply fmap_nil_inv in Hsel.
    assert ((l, s) ∈ filter (λ c : string * Series, c.1 = l) frame) as Hf
      by by apply list_elem_of_filter.
    rewrite Hsel in Hf. by apply not_elem_of_nil in Hf.
  - intros Hsel. destruct (decide (l ∈ columns frame)); [done|].
    by destruct Hsel; apply select_not_elem_of.
Qed.

(** X4.  How [apply_corrections] fails.  Without a table it raises
    [TypeError]; without the absolute-value column, [KeyError] on that
    label; with a cell in that column that is no number, [TypeError]: in the
    three cases the processor is left as it was.  When the absolute values
    were taken and the target column is missing, it raises [KeyError] on the
    target label and the table keeps the absolute values: the first
    assignment is not undone. *)
Theorem apply_corrections_failures self column_name abs_column :
  (df self = None →
   apply_corrections column_name abs_column self
   = (Raise (TypeError "'NoneType' object is not subscriptable"), self)) ∧
  (∀ frame, df self = Some frame → abs_column ∉ columns frame →
     apply_corrections column_name abs_column self = (Raise (KeyError abs_column), self)) ∧
  (∀ frame s, df self = Some frame → select abs_column frame = [s] → ¬ Forall is_number s →
     ∃ msg, apply_corrections column_name abs_column self = (Raise (TypeError msg), self)) ∧
  (∀ frame s s', df self = Some frame → select abs_column frame = [s] →
     series_abs s = Ok s' → column_name ∉ columns frame →
     ∃ frame',
       apply_corrections column_name abs_column self
       = (Raise (KeyError column_name), set_df (Some frame') self) ∧
       select abs_column frame' = [s'] ∧
       ∀ l, l ≠ abs_column → select l frame' = select l frame).
Proof.
  cbv [apply_corrections mbind method_bind outcome_bind get_self call assign].
  split_and!.
  - by intros ->.
  - intros frame -> Hout. simpl. unfold getitem. by rewrite select_not_elem_of.
  - intros frame s -> Hsel Hnot. simpl. rewrite (getitem_one _ _ s Hsel). simpl.
    destruct (series_abs_not_numbers s Hnot) as [msg ->]. by exists msg.
  - intros frame s s' -> Hsel Habs Hout. simpl.
    pose proof (getitem_one _ _ s Hsel) as Hget. rewrite Hget. simpl. rewrite Habs. simpl.
    destruct (setitem_getitem frame abs_column (OneSeries s) (OneSeries s') Hget)
      as (-> & (Hc & _ & Hsame) & Hsel'); [by apply series_abs_length|].
    simpl in *. unfold getitem. rewrite select_not_elem_of by (by rewrite Hc). simpl.
    eexists. split_and!; [done..|].
    intros l Hl. apply Hsame. by intros ->%list_elem_of_singleton.
Qed.

(** X6.  The relabelling followed by the correction, as [process] chains
    them.  On a table in which the crops are stored under label A, the
    yields under label B and the heights under a third label, each in one
    column, and in which the heights are numbers, the two steps return a
    table that reads under B the corrected crops, under A the yields, under
    the third label the absolute heights, and under any other label what it
    read before. *)
Theorem rename_then_correct self frame A B abs_column rest crops yields heights heights' :
  df self = Some frame →
  columns_to_rename self = (A, B) :: rest →
  select A frame = [crops] → select B frame = [yields] →
  select abs_column frame = [heights] →
  A ≠ B → abs_column ≠ A → abs_column ≠ B →
  series_abs heights = Ok heights' →
  ∃ frame',
    (rename_columns ≫= λ _, apply_corrections B abs_column) self
    = (Ok (), set_df (Some frame') self) ∧
    select B frame' = [series_apply (correct_value (values_to_rename self)) crops] ∧
    select A frame' = [yields] ∧
    select abs_column frame' = [heights'] ∧
    (∀ l, l ≠ A → l ≠ B → l ≠ abs_column → select l frame' = select l frame) ∧
    columns frame' = swap_label A B <$> columns frame.
Proof.
  intros Hdf Hcfg HA HB Habs HAB HabsA HabsB Hheights.
  pose proof (swap_label_inj A B) as Hinj.
  set (renamed := relabel (swap_label A B) frame).
  assert (rename_columns self = (Ok (), set_df (Some renamed) self)) as Hrename.
  { eapply rename_columns_relabel; [done..|]. apply select_elem_of. by rewrite HA. }
  assert (select B renamed = [crops]) as HB'.
  { rewrite <-HA, <-(swap_label_l A B) at 1. by apply select_relabel. }
  assert (select A renamed = [yields]) as HA'.
  { rewrite <-HB, <-(swap_label_r A B) at 1. by apply select_relabel. }
  assert (∀ l, l ≠ A → l ≠ B → select l renamed = select l frame) as Hother.
  { intros l ? ?. rewrite <-(swap_label_other A B l) at 1 by done. by apply select_relabel. }
  destruct (setitem_getitem renamed abs_column (OneSeries heights) (OneSeries heights'))
    as (Hset1 & (Hc1 & _ & Hsame1) & Hsel1).
  { apply getitem_one. by rewrite Hother. }
  { by apply series_abs_length. }
  simpl in Hset1, Hc1, Hsame1, Hsel1.
  set (frame1 := replace_columns abs_column [heights'] renamed) in *.
  set (corrected := series_apply (correct_value (values_to_rename self)) crops).
  destruct (setitem_getitem frame1 B (OneSeries crops) (OneSeries corrected))
    as (Hset2 & (Hc2 & _ & Hsame2) & Hsel2).
  { apply getitem_one. rewrite Hsame1; [done|]. by intros ->%list_elem_of_singleton. }
  { unfold corrected, series_apply. simpl. by rewrite length_fmap. }
  simpl in Hset2, Hc2, Hsame2, Hsel2.
  exists (replace_columns B [corrected] frame1). split_and!.
  - unfold mbind at 1, method_bind. rewrite Hrename.
    rewrite (apply_corrections_run B abs_column _ renamed (OneSeries heights) (OneSeries heights')
               frame1 (OneSeries crops) (OneSeries corrected) (replace_columns B [corrected] frame1)).
    + by rewrite set_df_twice.
    + by destruct self.
    + apply getitem_one. by rewrite Hother.
    + simpl. by rewrite Hheights.
    + done.
    + apply getitem_one. rewrite Hsame1; [done|]. by intros ->%list_elem_of_singleton.
    + by destruct self.
    + done.
  - done.
  - rewrite Hsame2, Hsame1; [done|..]; by intros ->%list_elem_of_singleton.
  - rewrite Hsame2; [done|]. by intros ->%list_elem_of_singleton.
  - intros l HlA HlB Hlabs. rewrite Hsame2, Hsame1, Hother; [done..| |];
      by intros ->%list_elem_of_singleton.
  - rewrite Hc2, Hc1. apply columns_relabel.
Qed.

End CorrectionsAgain.

Lemma apply_corrections_twice_witness :
  FieldDataProcessor.apply_corrections "Annual_yield" "Elevation"
    (FieldDataProcessor.apply_corrections "Annual_yield" "Elevation" Examples.loaded).2
  = (Ok (), (FieldDataProcessor.apply_corrections "Annual_yield" "Elevation" Examples.loaded).2).
Proof.
  apply (apply_corrections_twice Examples.loaded).
  - apply shipped_mapping_closed.
  - by vm_compute.
Defined.

Lemma rename_then_correct_witness :
  ∃ frame',
    (FieldDataProcessor.rename_columns
       ≫= λ _, FieldDataProcessor.apply_corrections "Crop_type" "Elevation") Examples.loaded
    = (Ok (), FieldDataProcessor.set_df (Some frame') Examples.loaded) ∧
    select "Crop_type" frame' = [[CStr "wheat"; CStr "tea"]] ∧
    select "Annual_yield" frame' = [[CFloat 0.5%float; CFloat 0.25%float]] ∧
    select "Elevation" frame' = [[CFloat 786.0558%float; CFloat 674.3341%float]].
Proof.
  destruct (rename_then_correct Examples.loaded Examples.survey "Annual_yield" "Crop_type"
              "Elevation" [("Crop_type", "Annual_yield")]
              [CStr "wheatn"; CStr "tea"] [CFloat 0.5%float; CFloat 0.25%float]
              [CFloat (-786.0558)%float; CFloat 674.3341%float]
              [CFloat 786.0558%float; CFloat 674.3341%float])
    as (frame' & Hrun & HB & HA & Habs & _); [reflexivity..|done|done|done|by vm_compute|].
  exists frame'. by split_and!.
Defined.

(* ===================================================================== *)
(** * What the adapter returns and raises *)
(* ===================================================================== *)
Section AdapterResults.
Context (lib : Libraries).

(** X7.  [create_db_engine] returns an engine exactly when the engine was
    created and its test connection opened; the engine returned is the one
    created.  It raises exactly what the creation or the test connection
    raised: no failure is swallowed or replaced. *)
Theorem create_db_engine_validated db_path :
  (∀ engine, create_db_engine lib db_path = Ok engine ↔
             create_engine lib db_path = Ok engine ∧ connect lib engine = Ok ()) ∧
  (∀ e, create_db_engine lib db_path = Raise e ↔
        create_engine lib db_path = Raise e ∨
        ∃ engine, create_engine lib db_path = Ok engine ∧ connect lib engine = Raise e).
Proof.
  unfold create_db_engine.
  destruct (create_engine lib db_path) as [created|e'|] eqn:Hcreate; simpl;
    [destruct (connect lib created) as [[]|e'|] eqn:Hconn; simpl|..];
    try destruct (is_ImportError e').
  all: split; [intros engine|intros e]; split.
  all: try (intros [= <-]); try (intros [[= <-] ?]).
  all: try (intros [[= <-]|(engine & [= <-] & ?)]).
  all: try congruence.
  all: try (split; congruence).
  all: try (left; congruence).
  all: right; eexists; split; [reflexivity|congruence].
Qed.

(** X8.  [query_data] returns a table exactly when the connection opened
    and the query produced that table with at least one row: a table it
    returns is never empty.  It raises exactly what the connection or the
    query raised, or the error of the empty result. *)
Theorem query_data_results engine sql_query :
  (∀ frame, query_data lib engine sql_query = Ok frame ↔
            connect lib engine = Ok () ∧ read_sql_query lib engine sql_query = Ok frame ∧
            0 < nrows frame) ∧
  (∀ frame, query_data lib engine sql_query = Ok frame →
            empty frame = false ∧ columns frame ≠ []) ∧
  (∀ e, query_data lib engine sql_query = Raise e ↔
        connect lib engine = Raise e ∨
        (connect lib engine = Ok () ∧ read_sql_query lib engine sql_query = Raise e) ∨
        (connect lib engine = Ok () ∧
         e = ValueError "The query returned an empty DataFrame." ∧
         ∃ frame, read_sql_query lib engine sql_query = Ok frame ∧ nrows frame = 0)).
Proof.
  unfold query_data.
  destruct (connect lib engine) as [[]|e'|] eqn:Hconn; simpl;
    [destruct (read_sql_query lib engine sql_query) as [table|e'|] eqn:Hread; simpl;
     [destruct (empty table) eqn:Hempty; simpl|..]|..];
    try destruct (is_ValueError e').
  3-8: split_and!; [intros frame; split; [done|intros (? & ? & ?); congruence]|done|];
       intros e; split;
       [try done; intros [= <-]; auto
       |intros [?|[[? ?]|(? & ? & ? & ? & ?)]]; congruence].
  - pose proof (proj1 (empty_nrows table) Hempty) as Hrows.
    split_and!; [intros frame; split; [done|intros (_ & [= <-] & ?); lia]|done|].
    intros e. split.
    + intros [= <-]. right. right. by eauto.
    + intros [?|[[_ ?]|(_ & -> & _)]]; done.
  - assert (0 < nrows table) as Hrows.
    { destruct (decide (nrows table = 0)) as [H0|]; [|lia].
      apply empty_nrows in H0. congruence. }
    split_and!.
    + intros frame. split; [by intros [= <-]|by intros (_ & [= <-] & _)].
    + intros frame [= <-]. split; [done|]. by destruct table.
    + intros e. split; [done|].
      intros [?|[[_ ?]|(_ & _ & frame & [= <-] & ?)]]; [done..|lia].
Qed.

End AdapterResults.

(* ===================================================================== *)
(** * Building the processors *)
(* ===================================================================== *)
Section Construction.

(** X9.  [FieldDataProcessor(config_params)] returns exactly when the dict
    has the six keys it reads; the processor then holds their values, no
    table and no engine.  Otherwise it raises [KeyError] for the first of
    these keys, in reading order, that the dict lacks.  The key
    [regex_patterns] plays no part. *)
Theorem field_init_outcomes (cfg : Config.config) :
  (∀ self, FieldDataProcessor.init cfg = Ok self ↔
     Config.db_path cfg = Some (FieldDataProcessor.db_path self) ∧
     Config.sql_query cfg = Some (FieldDataProcessor.sql_query self) ∧
     Config.columns_to_rename cfg = Some (FieldDataProcessor.columns_to_rename self) ∧
     Config.values_to_rename cfg = Some (FieldDataProcessor.values_to_rename self) ∧
     Config.weather_csv_path cfg = Some (FieldDataProcessor.weather_csv_path self) ∧
     Config.weather_mapping_csv cfg = Some (FieldDataProcessor.weather_mapping_csv self) ∧
     FieldDataProcessor.df self = None ∧ FieldDataProcessor.engine self = None) ∧
  (∀ e, FieldDataProcessor.init cfg = Raise e ↔
     ∃ key, e = KeyError key ∧ head (field_keys_absent cfg) = Some key) ∧
  FieldDataProcessor.init cfg ≠ OutOfFuel.
Proof.
  destruct cfg as [[q|] [d|] [c|] [v|] [w|] [m|] r]; cbn.
  all: split_and!; [intros self; split|intros e; split|done].
  all: try done.
  all: try (intros [= <-]; cbn; first [by split_and!|by eexists]).
  all: try (intros (key & -> & [= <-]); done).
  all: try (intros (? & ? & ? & ? & ? & ? & ? & ?); destruct self; by simplify_eq/=).
  all: by intros (key & _ & ?).
Qed.

(** X10.  [WeatherDataProcessor(config_params)] returns exactly when the
    dict has the keys [weather_csv_path] and [regex_patterns]; the processor
    then holds their values and no table.  Otherwise it raises [KeyError]
    for the first of the two that the dict lacks.  The dict of config.py is
    accepted by the field processor and not by the weather processor: it has
    no [regex_patterns]. *)
Theorem weather_init_outcomes (cfg : Config.config) :
  (∀ self, WeatherDataProcessor.init cfg = Ok self ↔
     Config.weather_csv_path cfg = Some (WeatherDataProcessor.weather_station_data self) ∧
     Config.regex_patterns cfg = Some (WeatherDataProcessor.patterns self) ∧
     WeatherDataProcessor.weather_df self = None) ∧
  (∀ e, WeatherDataProcessor.init cfg = Raise e ↔
     ∃ key, e = KeyError key ∧ head (weather_keys_absent cfg) = Some key) ∧
  WeatherDataProcessor.init cfg ≠ OutOfFuel ∧
  (∃ self, FieldDataProcessor.init Config.config_params = Ok self) ∧
  WeatherDataProcessor.init Config.config_params = Raise (KeyError "regex_patterns").
Proof.
  destruct cfg as [q d c v [w|] m [r|]]; cbn.
  all: split_and!; [intros self; split|intros e; split|done|by eexists|done].
  all: try done.
  all: try (intros [= <-]; cbn; first [by split_and!|by eexists]).
  all: try (intros (key & -> & [= <-]); done).
  all: try (intros (? & ? & ?); destruct self; by simplify_eq/=).
  all: by intros (key & _ & ?).
Qed.

End Construction.

(* ===================================================================== *)
(** * The field pipeline as a whole *)
(* ===================================================================== *)
Section FieldPipeline.
Context (lib : Libraries).

(** X11.  [FieldDataProcessor.process] never completes.  It raises what
    [create_db_engine] raised, the processor left as it was; or, the engine
    created and stored, the [AttributeError] of the lookup of [query_data]
    on the dict.  In every run the table of the processor is the one it had
    before: no column is relabelled, no value corrected, nothing joined. *)
Theorem process_never_completes (self : FieldDataProcessor.instance) :
  (∀ e, create_db_engine lib (FieldDataProcessor.db_path self) = Raise e →
     FieldDataProcessor.process lib self = (Raise e, self)) ∧
  (∀ created, create_db_engine lib (FieldDataProcessor.db_path self) = Ok created →
     FieldDataProcessor.process lib self
     = (Raise (AttributeError "'dict' object has no attribute 'query_data'"),
        FieldDataProcessor.set_engine (Some created) self)) ∧
  (FieldDataProcessor.process lib self).1 ≠ Ok () ∧
  FieldDataProcessor.df (FieldDataProcessor.process lib self).2 = FieldDataProcessor.df self.
Proof.
  cbv [FieldDataProcessor.process FieldDataProcessor.ingest_sql_data
       mbind method_bind get_self call assign].
  rewrite config_params_query_data.
  destruct (create_db_engine lib (FieldDataProcessor.db_path self)) as [created|e'|];
    split_and!; try done.
  - by intros e [= <-].
  - by intros e [= <-].
Qed.

(** X12.  [run_field_data_processing] returns no table, whatever the dict
    and the data source: it raises [KeyError] for the first key the dict
    lacks, or else what [create_db_engine] raised, or else the
    [AttributeError] of the lookup of [query_data]. *)
Theorem run_field_data_processing_raises (cfg : Config.config) :
  (∀ result, Runs.run_field_data_processing lib cfg ≠ Ok result) ∧
  (∀ key, head (field_keys_absent cfg) = Some key →
     Runs.run_field_data_processing lib cfg = Raise (KeyError key)) ∧
  (∀ db_path, field_keys_absent cfg = [] → Config.db_path cfg = Some db_path →
     (∀ e, create_db_engine lib db_path = Raise e →
        Runs.run_field_data_processing lib cfg = Raise e) ∧
     (∀ created, create_db_engine lib db_path = Ok created →
        Runs.run_field_data_processing lib cfg
        = Raise (AttributeError "'dict' object has no attribute 'query_data'"))).
Proof.
  unfold Runs.run_field_data_processing.
  destruct cfg as [[q|] [d|] [c|] [v|] [w|] [m|] r]; cbn -[FieldDataProcessor.process].
  all: split_and!; [intros result|intros key|intros db_path]; try done.
  all: try (by intros [= <-]).
  -     cbv [FieldDataProcessor.process FieldDataProcessor.ingest_sql_data
         mbind method_bind get_self call assign].
    rewrite config_params_query_data. simpl.
    by destruct (create_db_engine lib d).
  - intros _ [= <-].
    cbv [FieldDataProcessor.process FieldDataProcessor.ingest_sql_data
         mbind method_bind get_self call assign].
    rewrite config_params_query_data. simpl.
    split; [by intros e ->|by intros created ->].
Qed.

(** X13.  [read_from_web_CSV] adds nothing to [pd.read_csv]: it returns the
    table read, whatever its size (an empty table is no error here), and it
    raises what the reader raised.  The weather processor's
    [weather_station_mapping] stores that table, and keeps the table it had
    when the reader raises. *)
Theorem read_from_web_CSV_transparent (URL : string) (self : WeatherDataProcessor.instance) :
  read_from_web_CSV lib URL = read_csv lib URL ∧
  (∀ frame, read_csv lib (WeatherDataProcessor.weather_station_data self) = Ok frame →
     WeatherDataProcessor.weather_station_mapping lib self
     = (Ok (), WeatherDataProcessor.set_weather_df (Some frame) self)) ∧
  (∀ e, read_csv lib (WeatherDataProcessor.weather_station_data self) = Raise e →
     WeatherDataProcessor.weather_station_mapping lib self = (Raise e, self)).
Proof.
  assert (∀ U, read_from_web_CSV lib U = read_csv lib U) as Hread.
  { intros U. unfold read_from_web_CSV.
    destruct (read_csv lib U) as [|e|]; simpl; [done| |done].
    by destruct (is_EmptyDataError e). }
  split; [done|].
  cbv [WeatherDataProcessor.weather_station_mapping mbind method_bind get_self call assign].
  rewrite Hread. split; [by intros frame ->|by intros e ->].
Qed.

End FieldPipeline.

(* ===================================================================== *)
(** * What a message can yield *)
(* ===================================================================== *)
Section MessageOutcomes.
Import WeatherDataProcessor.
Context (lib : Libraries).

(** A search returns, or raises what the compilation of its pattern raised,
    or, the pattern compiled, the [TypeError] of a message that is no
    string. *)
Lemma re_search_outcomes pattern message :
  re_search lib pattern message ≠ OutOfFuel ∧
  (∀ e, re_search lib pattern message = Raise e →
     re_compile_error lib pattern = Some e ∨
     (re_compile_error lib pattern = None ∧ (∀ text, message ≠ CStr text) ∧
      ∃ msg, e = TypeError msg)).
Proof.
  unfold re_search. destruct (re_compile_error lib pattern) as [e'|].
  - split; [done|]. intros e [= <-]. by left.
  - destruct message; (split; [done|]); try done; intros e [= <-]; right;
      (split_and!; [done|done|by eexists]).
Qed.

Lemma extract_from_outcomes items message :
  extract_from lib items message ≠ OutOfFuel ∧
  (∀ kind value, extract_from lib items message = Ok (kind, value) →
     (kind = None ∧ value = None ∧
      ∀ k p, (k, p) ∈ items → re_search lib p message = Ok None) ∨
     (∃ k v before pattern after groups text,
        kind = Some k ∧ value = Some v ∧
        items = before ++ (k, pattern) :: after ∧
        (∀ k' p', (k', p') ∈ before → re_search lib p' message = Ok None) ∧
        re_search lib pattern message = Ok (Some groups) ∧
        first_group groups text ∧ float_of_str lib text = Some v)) ∧
  (∀ e, extract_from lib items message = Raise e →
     ∃ before k pattern after,
       items = before ++ (k, pattern) :: after ∧
       (∀ k' p', (k', p') ∈ before → re_search lib p' message = Ok None) ∧
       (re_search lib pattern message = Raise e ∨
        ∃ groups, re_search lib pattern message = Ok (Some groups) ∧
          ((Forall (λ g, g = None) groups ∧ e = StopIteration) ∨
           (∃ text msg, first_group groups text ∧ float_of_str lib text = None ∧
                        e = ValueError msg)))).
Proof.
  induction items as [|[k p] items (IHfuel & IHok & IHraise)]; simpl.
  { split_and!; [done| |done]. intros kind value [= <- <-]. left.
    split_and!; [done..|]. by intros k p ?%elem_of_nil. }
  pose proof (re_search_outcomes p message) as [Hfuel _].
  destruct (re_search lib p message) as [[groups|]|e'|] eqn:Hmatch; simpl; [| | |done].
  - destruct (first_group_or_none groups) as [(text & Hfirst)|Hall].
    + rewrite (next_not_none_first _ _ Hfirst). simpl. unfold parse_float.
      destruct (float_of_str lib text) as [v|] eqn:Hv; simpl.
      * split_and!; [done| |done]. intros kind value [= <- <-]. right.
        exists k, v, [], p, items, groups, text. split_and!; try done.
        by intros k' p' ?%elem_of_nil.
      * split_and!; [done..|]. intros e [= <-].
        exists [], k, p, items. split_and!; [done|by intros k' p' ?%elem_of_nil|].
        right. exists groups. split; [done|]. right. by eexists text, _.
    + rewrite (next_not_none_all_none _ Hall). simpl.
      split_and!; [done..|]. intros e [= <-].
      exists [], k, p, items. split_and!; [done|by intros k' p' ?%elem_of_nil|].
      right. exists groups. split; [done|]. by left.
  - split_and!; [done| |].
    + intros kind value Hrun.
      destruct (IHok kind value Hrun)
        as [(-> & -> & Hnone)|(k' & v & before & pattern & after & groups & text &
                               -> & -> & -> & Hnone & Hfound & Hfirst & Hv)].
      * left. split_and!; [done..|]. intros k' p' [[= -> ->]|Hin]%elem_of_cons; [done|].
        by apply (Hnone k' p').
      * right. exists k', v, ((k, p) :: before), pattern, after, groups, text.
        split_and!; try done.
        intros k'' p'' [[= -> ->]|Hin]%elem_of_cons; [done|]. by apply (Hnone k'' p'').
    + intros e Hrun.
      destruct (IHraise e Hrun) as (before & k' & pattern & after & -> & Hnone & Hcase).
      exists ((k, p) :: before), k', pattern, after. split_and!; [done| |done].
      intros k'' p'' [[= -> ->]|Hin]%elem_of_cons; [done|]. by apply (Hnone k'' p'').
  - split_and!; [done..|]. intros e [= <-].
    exists [], k, p, items. split_and!; [done|by intros k' p' ?%elem_of_nil|]. by left.
Qed.

(** X14.  What [extract_measurement] can yield.  A returned pair is
    [(None, None)], and then no pattern matches the message, or a kind with
    a value, and then the kind is the key of the first rule whose pattern
    matches and the value the float read from its first group that is not
    [None]: a kind never comes without a value, nor a value without a kind.
    An exception comes from the first rule whose search does not return
    [None]: it is what that search raised (the error of a pattern that is
    no regular expression or, the pattern compiled, the [TypeError] of a
    message that is no string), or the [StopIteration] of a match without a
    group, or the [ValueError] of a group that is no number. *)
Theorem extract_measurement_outcomes self message :
  extract_measurement lib self message ≠ OutOfFuel ∧
  (∀ kind value, extract_measurement lib self message = Ok (kind, value) →
     (kind = None ∧ value = None ∧
      ∀ k p, (k, p) ∈ patterns self → re_search lib p message = Ok None) ∨
     (∃ k v before pattern after groups text,
        kind = Some k ∧ value = Some v ∧
        patterns self = before ++ (k, pattern) :: after ∧
        (∀ k' p', (k', p') ∈ before → re_search lib p' message = Ok None) ∧
        re_search lib pattern message = Ok (Some groups) ∧
        first_group groups text ∧ float_of_str lib text = Some v)) ∧
  (∀ e, extract_measurement lib self message = Raise e →
     ∃ before k pattern after,
       patterns self = before ++ (k, pattern) :: after ∧
       (∀ k' p', (k', p') ∈ before → re_search lib p' message = Ok None) ∧
       ((re_search lib pattern message = Raise e ∧
         (re_compile_error lib pattern = Some e ∨
          (re_compile_error lib pattern = None ∧ (∀ text, message ≠ CStr text) ∧
           ∃ msg, e = TypeError msg))) ∨
        ∃ groups, re_search lib pattern message = Ok (Some groups) ∧
          ((Forall (λ g, g = None) groups ∧ e = StopIteration) ∨
           (∃ text msg, first_group groups text ∧ float_of_str lib text = None ∧
                        e = ValueError msg)))).
Proof.
  unfold extract_measurement.
  destruct (extract_from_outcomes (patterns self) message) as (Hfuel & Hok & Hraise).
  split_and!; [done..|].
  intros e Hrun.
  destruct (Hraise e Hrun) as (before & k & pattern & after & Hitems & Hnone & [Hsearch|Hmatch]).
  - exists before, k, pattern, after. split_and!; [done..|]. left. split; [done|].
    by apply re_search_outcomes.
  - exists before, k, pattern, after. split_and!; [done..|]. by right.
Qed.

End MessageOutcomes.

(* ===================================================================== *)
(** * The shape of the table of means *)
(* ===================================================================== *)
Section TableShape.
Import WeatherDataProcessor.


End TableShape.


(* ===================================================================== *)
(** * Parsing the messages of a table *)
(* ===================================================================== *)
Section Messages.
Import WeatherDataProcessor.
Context (lib : Libraries).
Context (apply_to_frame : list Series → method instance (option DataFrame)).

Lemma extract_measurement_fuel self c : extract_measurement lib self c ≠ OutOfFuel.
Proof. apply extract_from_outcomes. Qed.

(** [mapM] stops at the first element that raises. *)
Lemma mapM_outcome_first_raise {A B} (f : A → outcome B) (l : list A) i x e :
  l !! i = Some x → f x = Raise e →
  (∀ j y, j < i → l !! j = Some y → ∃ r, f y = Ok r) →
  mapM f l = Raise e.
Proof.
  revert i. induction l as [|y l IH]; intros [|i] Hi Hx Hbefore; simpl in *; simplify_eq.
  - by rewrite Hx.
  - rewrite (IH i); [|done..|].
    + by destruct (Hbefore 0 y) as [r ->]; [lia|done|].
    + intros j z Hj Hz. apply (Hbefore (S j) z); [lia|done].
Qed.

Lemma Forall2_mapM_outcome {A B} (f : A → outcome B) (l : list A) (k : list B) :
  Forall2 (λ x y, f x = Ok y) l k → mapM f l = Ok k.
Proof. induction 1 as [|x y l k Hx _ IH]; simpl; [done|]. by rewrite Hx, IH. Qed.

Lemma elem_of_select l s (d : DataFrame) : s ∈ select l d → s ∈ d.*2.
Proof.
  unfold select. intros ([l' s'] & -> & [_ Hin]%list_elem_of_filter)%list_elem_of_fmap.
  by apply (list_elem_of_fmap_2' _ _ (l', s')).
Qed.

(** Overwriting the columns of a label by as many columns. *)
Lemma replace_columns_select label news d :
  length news = length (select label d) →
  columns (replace_columns label news d) = columns d ∧
  (∀ l, l ≠ label → select l (replace_columns label news d) = select l d) ∧
  select label (replace_columns label news d) = news.
Proof.
  revert news. induction d as [|[l s0] d IH]; intros news Hlen.
  { by destruct news. }
  rewrite select_cons in Hlen. simpl. case_decide as Hl.
  - subst l. destruct news as [|n news]; [done|]. simpl in Hlen.
    destruct (IH news) as (IHc & IHo & IHs); [lia|]. split_and!.
    + unfold columns in *. rewrite ?fmap_cons. simpl. by f_equal.
    + intros l Hne. rewrite !select_cons, !decide_False by done. by apply IHo.
    + rewrite select_cons, decide_True by done. by f_equal.
  - destruct (IH news Hlen) as (IHc & IHo & IHs). split_and!.
    + unfold columns in *. rewrite ?fmap_cons. simpl. by f_equal.
    + intros l' Hne. rewrite !select_cons. case_decide; [f_equal|]; by apply IHo.
    + by rewrite select_cons, decide_False.
Qed.

Lemma replace_columns_Forall (P : Series → Prop) label news d :
  Forall P news → Forall P d.*2 → Forall P (replace_columns label news d).*2.
Proof.
  revert news. induction d as [|[l s0] d IH]; intros news Hnews Hd; [done|].
  rewrite fmap_cons in Hd. apply Forall_cons in Hd as [Hs0 Hd]. simpl.
  case_decide.
  - destruct Hnews as [|n news Hn Hnews]; rewrite ?fmap_cons; constructor; auto.
  - rewrite fmap_cons. constructor; auto.
Qed.

Lemma replace_columns_nrows label news d :
  Forall (λ s, length s = nrows d) news → nrows (replace_columns label news d) = nrows d.
Proof.
  intros Hnews. destruct d as [|[l s0] d]; [done|]. simpl. case_decide; [|done].
  destruct Hnews as [|n news Hn _]; [done|]. done.
Qed.

Lemma select_nil_not_elem_of l (d : DataFrame) : select l d = [] ↔ l ∉ columns d.
Proof.
  split; [|apply select_not_elem_of].
  unfold select, columns. induction d as [|[l' s] d IH]; [by intros _ ?%elem_of_nil|].
  rewrite filter_cons. simpl. case_decide; [done|].
  intros Hsel. rewrite not_elem_of_cons. split; [congruence|by apply IH].
Qed.

(** A tuple with one object per row, stored under a label: a new label is
    appended, an old one has all its columns overwritten (by the column of
    the tuple, or one object each when there are as many columns as
    objects), and nothing else changes. *)
Lemma set_column_frame d label objects column :
  length objects = nrows d → length column = nrows d →
  ∃ d',
    set_column d label objects column = Ok d' ∧
    columns d' = columns d ++ filter (λ l, l ∉ columns d) [label] ∧
    nrows d' = nrows d ∧
    (rectangular d → rectangular d') ∧
    (∀ l, l ≠ label → select l d' = select l d) ∧
    (¬ (1 < length (select label d) ∧ length (select label d) = nrows d) →
     select label d' = replicate (length (select label d) `max` 1) column) ∧
    (1 < length (select label d) ∧ length (select label d) = nrows d →
     select label d' = (λ c, replicate (nrows d) c) <$> objects).
Proof.
  intros Hlen Hcol. unfold set_column. rewrite decide_True by done. rewrite Hlen.
  assert (label ∈ columns d →
          columns d ++ filter (λ l, l ∉ columns d) [label] = columns d) as Hold.
  { intros Hin. rewrite filter_cons, decide_False by (by intros ?). simpl.
    by rewrite app_nil_r. }
  case_decide as Hdup.
  - assert (label ∈ columns d) as Hin.
    { destruct (decide (label ∈ columns d)) as [|Hout]; [done|].
      apply select_nil_not_elem_of in Hout. rewrite Hout in Hdup. simpl in Hdup. lia. }
    destruct (replace_columns_select label ((λ c, replicate (nrows d) c) <$> objects) d)
      as (Hc & Ho & Hs); [rewrite length_fmap; lia|].
    assert (Forall (λ s : Series, length s = nrows d)
              ((λ c, replicate (nrows d) c) <$> objects)) as Hnews.
    { apply Forall_fmap, Forall_forall. intros c _. simpl. by rewrite length_replicate. }
    eexists. split_and!; [done| | | |done| |].
    + by rewrite Hc, Hold.
    + by apply replace_columns_nrows.
    + unfold rectangular. rewrite replace_columns_nrows by done.
      by apply replace_columns_Forall.
    + done.
    + done.
  - unfold setitem.
    destruct (select label d) as [|old olds] eqn:Hsel.
    + pose proof (proj1 (select_nil_not_elem_of label d) Hsel) as Hout.
      exists (d ++ [(label, column)]). split_and!; [done|..].
      * unfold columns. rewrite fmap_app. f_equal.
        rewrite filter_cons, decide_True by done. done.
      * by destruct d as [|[??] ?].
      * unfold rectangular. intros Hrect.
        assert (nrows (d ++ [(label, column)]) = nrows d) as ->.
        { destruct d as [|[??] ?]; [|done]. simpl in *. done. }
        rewrite fmap_app. apply Forall_app. split; [done|]. by repeat constructor.
      * intros l Hne. unfold select. rewrite filter_app, fmap_app.
        rewrite filter_cons, decide_False by (simpl; congruence). simpl. by rewrite app_nil_r.
      * intros _. unfold select in *. rewrite filter_app, fmap_app, Hsel.
        rewrite filter_cons, decide_True by done. done.
      * simpl. lia.
    + assert (label ∈ columns d) as Hin.
      { destruct (decide (label ∈ columns d)) as [|Hout]; [done|].
        apply select_nil_not_elem_of in Hout. congruence. }
      rewrite decide_False by (rewrite Hcol; done).
      destruct (replace_columns_select label (replicate (length (old :: olds)) column) d)
        as (Hc & Ho & Hs); [by rewrite length_replicate, Hsel|].
      assert (Forall (λ s : Series, length s = nrows d)
                (replicate (length (old :: olds)) column)) as Hnews.
      { by apply Forall_replicate. }
      eexists. split_and!; [done| | | |done| |].
      * by rewrite Hc, Hold.
      * by apply replace_columns_nrows.
      * unfold rectangular. rewrite replace_columns_nrows by done.
        by apply replace_columns_Forall.
      * intros _. rewrite Hs. simpl. do 2 f_equal. lia.
      * done.
Qed.

Lemma value_column_length values : length (value_column values) = length values.
Proof. unfold value_column. case_decide; by rewrite length_fmap. Qed.

(** A run in which every message is processed. *)
Lemma process_messages_run self frame messages result :
  weather_df self = Some frame →
  select "Message" frame = [messages] →
  length messages = nrows frame →
  messages ≠ [] →
  Forall2 (λ c r, extract_measurement lib self c = Ok r) messages result →
  ∃ frame1 frame2,
    set_column frame "Measurement" (kind_cell <$> result.*1) (kind_cell <$> result.*1)
    = Ok frame1 ∧
    set_column frame1 "Value" (value_cell <$> result.*2) (value_column result.*2)
    = Ok frame2 ∧
    process_messages lib apply_to_frame self
    = (Ok (Some frame2), set_weather_df (Some frame2) self).
Proof.
  intros Hdf Hsel Hlen Hne Hall.
  pose proof (Forall2_length _ _ _ Hall) as Hres.
  destruct (set_column_frame frame "Measurement" (kind_cell <$> result.*1)
              (kind_cell <$> result.*1))
    as (frame1 & Hset1 & _ & Hrows1 & _); [by rewrite !length_fmap, <-Hres..|].
  destruct (set_column_frame frame1 "Value" (value_cell <$> result.*2)
              (value_column result.*2))
    as (frame2 & Hset2 & _);
    [by rewrite !length_fmap, <-Hres, Hrows1
    |by rewrite value_column_length, length_fmap, <-Hres, Hrows1|].
  exists frame1, frame2. split_and!; [done..|].
  cbv [process_messages mbind method_bind get_self call assign mret method_ret].
  rewrite Hdf. unfold getitem. rewrite Hsel.
  rewrite (Forall2_mapM_outcome _ _ _ Hall).
  assert (unzip result = Ok (result.*1, result.*2)) as ->.
  { destruct result; [by destruct messages|done]. }
  by rewrite Hset1, Hset2.
Qed.

(** On a table with at most one [Message] column, a run raises and leaves
    the processor alone, or processes every message and stores the table. *)
Lemma process_messages_cases self frame :
  weather_df self = Some frame →
  length (select "Message" frame) ≤ 1 →
  (∃ e, process_messages lib apply_to_frame self = (Raise e, self)) ∨
  (∃ frame',
     process_messages lib apply_to_frame self
     = (Ok (Some frame'), set_weather_df (Some frame') self) ∧
     0 < nrows frame' ∧ nrows frame' = nrows frame ∧
     "Measurement" ∈ columns frame' ∧ "Value" ∈ columns frame' ∧
     ∀ l, l ≠ "Measurement" → l ≠ "Value" → select l frame' = select l frame).
Proof.
  intros Hdf Hone.
  destruct (select "Message" frame) as [|messages [|]] eqn:Hsel; [| |simpl in Hone; lia].
  { left. eexists. cbv [process_messages mbind method_bind get_self call]. rewrite Hdf.
    unfold getitem. by rewrite Hsel. }
  destruct (mapM (extract_measurement lib self) messages) as [result|e|] eqn:Hmap.
  - pose proof (mapM_outcome_Forall2 _ _ _ Hmap) as Hall.
    pose proof (Forall2_length _ _ _ Hall) as Hres.
    destruct (decide (messages = [])) as [->|Hne].
    { left. eexists. cbv [process_messages mbind method_bind get_self call]. rewrite Hdf.
      unfold getitem. rewrite Hsel. by destruct result. }
    destruct (decide (length messages = nrows frame)) as [Hlen|Hlen].
    + right.
      destruct (process_messages_run self frame messages result Hdf Hsel Hlen Hne Hall)
        as (frame1 & frame2 & Hset1 & Hset2 & Hrun).
      destruct (set_column_frame frame "Measurement" (kind_cell <$> result.*1)
                  (kind_cell <$> result.*1))
        as (frame1' & Hset1' & Hc1 & Hrows1 & _ & Ho1 & _);
        [by rewrite !length_fmap, <-Hres..|].
      rewrite Hset1 in Hset1'. injection Hset1' as <-.
      destruct (set_column_frame frame1 "Value" (value_cell <$> result.*2)
                  (value_column result.*2))
        as (frame2' & Hset2' & Hc2 & Hrows2 & _ & Ho2 & _);
        [by rewrite !length_fmap, <-Hres, Hrows1
        |by rewrite value_column_length, length_fmap, <-Hres, Hrows1|].
      rewrite Hset2 in Hset2'. injection Hset2' as <-.
      assert ("Measurement" ∈ columns frame1) as HM.
      { rewrite Hc1. destruct (decide ("Measurement" ∈ columns frame)) as [|Hout].
        - apply elem_of_app. by left.
        - apply elem_of_app. right. rewrite filter_cons, decide_True by done. by left. }
      exists frame2. split_and!; [done| |by rewrite Hrows2| | |].
      * rewrite Hrows2, Hrows1, <-Hlen. destruct messages; [done|simpl; lia].
      * rewrite Hc2. apply elem_of_app. by left.
      * rewrite Hc2. destruct (decide ("Value" ∈ columns frame1)) as [|Hout].
        -- apply elem_of_app. by left.
        -- apply elem_of_app. right. rewrite filter_cons, decide_True by done. by left.
      * intros l HlM HlV. by rewrite Ho2, Ho1.
    + destruct result as [|r result]; [by destruct messages|].
      assert (∃ msg, set_column frame "Measurement" (kind_cell <$> (r :: result).*1)
                       (kind_cell <$> (r :: result).*1)
                     = Raise (ValueError msg)) as [msg Hset].
      { unfold set_column. rewrite decide_False; [by eexists|].
        by rewrite !length_fmap, <-Hres. }
      left. eexists. cbv [process_messages mbind method_bind get_self call]. rewrite Hdf.
      unfold getitem. rewrite Hsel, Hmap. cbn [unzip]. by rewrite Hset.
  - left. exists e. cbv [process_messages mbind method_bind get_self call]. rewrite Hdf.
    unfold getitem. by rewrite Hsel, Hmap.
  - by destruct (mapM_outcome_fuel (extract_measurement lib self) messages
                   (extract_measurement_fuel self)).
Qed.

(** X16.  [process_messages] is all or nothing.  Without a table it returns
    [None]; a table without a [Message] column raises [KeyError], and one
    without any row the [ValueError] of the unpacking.  With one [Message]
    column, the first message on which [extract_measurement] raises aborts
    the whole batch with that exception.  A cell that holds no string is
    such a message as soon as a rule is configured: the call raises what the
    compilation of the first pattern raises, or else [TypeError].  Whenever
    the call raises, the processor and its table are as they were: no row is
    parsed on its own. *)
Theorem process_messages_all_or_nothing self :
  (weather_df self = None → process_messages lib apply_to_frame self = (Ok None, self)) ∧
  (∀ frame, weather_df self = Some frame → select "Message" frame = [] →
     process_messages lib apply_to_frame self = (Raise (KeyError "Message"), self)) ∧
  (∀ frame messages,
     weather_df self = Some frame → select "Message" frame = [messages] →
     (messages = [] →
      process_messages lib apply_to_frame self
      = (Raise (ValueError "not enough values to unpack (expected 2, got 0)"), self)) ∧
     (∀ i c e,
        messages !! i = Some c → extract_measurement lib self c = Raise e →
        (∀ j c', j < i → messages !! j = Some c' →
                 ∃ r, extract_measurement lib self c' = Ok r) →
        process_messages lib apply_to_frame self = (Raise e, self)) ∧
     (∀ i c key pattern rest,
        messages !! i = Some c → (∀ text, c ≠ CStr text) →
        patterns self = (key, pattern) :: rest →
        (∀ j c', j < i → messages !! j = Some c' →
                 ∃ r, extract_measurement lib self c' = Ok r) →
        (∀ e, re_compile_error lib pattern = Some e →
              process_messages lib apply_to_frame self = (Raise e, self)) ∧
        (re_compile_error lib pattern = None →
         ∃ msg, process_messages lib apply_to_frame self = (Raise (TypeError msg), self))) ∧
     (process_messages lib apply_to_frame self).1 ≠ OutOfFuel ∧
     (∀ e, (process_messages lib apply_to_frame self).1 = Raise e →
           (process_messages lib apply_to_frame self).2 = self)).
Proof.
  split_and!.
  - intros Hdf. cbv [process_messages mbind method_bind get_self]. by rewrite Hdf.
  - intros frame Hdf Hsel.
    cbv [process_messages mbind method_bind get_self call]. rewrite Hdf.
    unfold getitem. by rewrite Hsel.
  - intros frame messages Hdf Hsel.
    assert (∀ i c e,
              messages !! i = Some c → extract_measurement lib self c = Raise e →
              (∀ j c', j < i → messages !! j = Some c' →
                       ∃ r, extract_measurement lib self c' = Ok r) →
              process_messages lib apply_to_frame self = (Raise e, self)) as Hraise.
    { intros i c e Hi Hc Hbefore.
      cbv [process_messages mbind method_bind get_self call]. rewrite Hdf.
      unfold getitem. rewrite Hsel.
      by rewrite (mapM_outcome_first_raise _ _ i c e Hi Hc Hbefore). }
    assert (length (select "Message" frame) ≤ 1) as Hone by (by rewrite Hsel).
    pose proof (process_messages_cases self frame Hdf Hone) as Hcases.
    split_and!; [|done| | |].
    + intros ->. cbv [process_messages mbind method_bind get_self call]. rewrite Hdf.
      unfold getitem. by rewrite Hsel.
    + intros i c key pattern rest Hi Hc Hrules Hbefore. split.
      * intros e He. apply (Hraise i c); [done| |done].
        unfold extract_measurement. rewrite Hrules. simpl. unfold re_search. by rewrite He.
      * intros Hcompiles. eexists. apply (Hraise i c); [done| |done].
        unfold extract_measurement. rewrite Hrules. simpl. unfold re_search.
        rewrite Hcompiles. destruct c as [|text| |]; try done. by destruct (Hc text).
    + by destruct Hcases as [[e ->]|(frame' & -> & _)].
    + intros e. by destruct Hcases as [[e' ->]|(frame' & -> & _)].
Qed.

Lemma value_column_lookup values i v :
  values !! i = Some v →
  ∃ c, value_column values !! i = Some c ∧
       match v with
       | Some x => c = CFloat x
       | None => isna c = true
       end.
Proof.
  intros Hi. unfold value_column. case_decide as Hall.
  - rewrite list_lookup_fmap, Hi. simpl. eexists. split; [done|].
    rewrite Forall_forall in Hall. by rewrite (Hall v) by (by eapply list_elem_of_lookup_2).
  - rewrite list_lookup_fmap, Hi. simpl. eexists. split; [done|]. by destruct v.
Qed.

(** The table a run that processes every message stores. *)
Lemma process_messages_stores self frame messages result :
  weather_df self = Some frame →
  select "Message" frame = [messages] →
  length messages = nrows frame →
  messages ≠ [] →
  Forall2 (λ c r, extract_measurement lib self c = Ok r) messages result →
  ∃ frame',
    process_messages lib apply_to_frame self
    = (Ok (Some frame'), set_weather_df (Some frame') self) ∧
    columns frame' = columns frame ++ filter (λ l, l ∉ columns frame) ["Measurement"; "Value"] ∧
    nrows frame' = nrows frame ∧
    (rectangular frame → rectangular frame') ∧
    (∀ l, l ≠ "Measurement" → l ≠ "Value" → select l frame' = select l frame) ∧
    (¬ (1 < length (select "Measurement" frame) ∧
        length (select "Measurement" frame) = nrows frame) →
     select "Measurement" frame'
     = replicate (length (select "Measurement" frame) `max` 1) (kind_cell <$> result.*1)) ∧
    (1 < length (select "Measurement" frame) ∧
     length (select "Measurement" frame) = nrows frame →
     select "Measurement" frame'
     = (λ c, replicate (nrows frame) c) <$> (kind_cell <$> result.*1)) ∧
    (¬ (1 < length (select "Value" frame) ∧ length (select "Value" frame) = nrows frame) →
     select "Value" frame'
     = replicate (length (select "Value" frame) `max` 1) (value_column result.*2)) ∧
    (1 < length (select "Value" frame) ∧ length (select "Value" frame) = nrows frame →
     select "Value" frame'
     = (λ c, replicate (nrows frame) c) <$> (value_cell <$> result.*2)).
Proof.
  intros Hdf Hsel Hlen Hne Hall.
  pose proof (Forall2_length _ _ _ Hall) as Hres.
  destruct (process_messages_run self frame messages result Hdf Hsel Hlen Hne Hall)
    as (frame1 & frame2 & Hset1 & Hset2 & Hrun).
  destruct (set_column_frame frame "Measurement" (kind_cell <$> result.*1)
              (kind_cell <$> result.*1))
    as (frame1' & Hset1' & Hc1 & Hrows1 & Hrect1 & Ho1 & Hs1 & Hd1);
    [by rewrite !length_fmap, <-Hres..|].
  rewrite Hset1 in Hset1'. injection Hset1' as <-.
  destruct (set_column_frame frame1 "Value" (value_cell <$> result.*2)
              (value_column result.*2))
    as (frame2' & Hset2' & Hc2 & Hrows2 & Hrect2 & Ho2 & Hs2 & Hd2);
    [by rewrite !length_fmap, <-Hres, Hrows1
    |by rewrite value_column_length, length_fmap, <-Hres, Hrows1|].
  rewrite Hset2 in Hset2'. injection Hset2' as <-.
  rewrite (Ho1 "Value") in Hs2, Hd2 by done. rewrite Hrows1 in Hs2, Hd2.
  exists frame2. split_and!.
  - done.
  - rewrite Hc2, Hc1, <-app_assoc. f_equal.
    rewrite !filter_cons, !filter_nil.
    destruct (decide ("Measurement" ∉ columns frame)) as [HM|HM];
      destruct (decide ("Value" ∉ columns frame)) as [HV|HV]; simpl.
    + rewrite decide_True; [done|]. rewrite not_elem_of_app, list_elem_of_singleton. by split.
    + rewrite decide_False; [done|]. intros Hout. apply HV. intros Hin. apply Hout.
      apply elem_of_app. by left.
    + rewrite app_nil_r. by rewrite decide_True.
    + rewrite app_nil_r. by rewrite decide_False.
  - by rewrite Hrows2.
  - auto.
  - intros l HM HV. by rewrite Ho2, Ho1.
  - intros Hnot. rewrite Ho2 by done. by apply Hs1.
  - intros Hdup. rewrite Ho2 by done. by apply Hd1.
  - done.
  - done.
Qed.

Lemma rectangular_select l s (d : DataFrame) :
  rectangular d → select l d = [s] → length s = nrows d.
Proof.
  unfold rectangular. rewrite Forall_forall. intros Hrect Hsel. apply Hrect.
  apply (elem_of_select l). rewrite Hsel. by left.
Qed.

(** X17.  When every message is processed, [process_messages] returns the
    table it stores: the table it had, with a [Measurement] and a [Value]
    column added at the end, in this order, unless the label was there
    already, in which case its columns are overwritten: each with the whole
    column of kinds or of values, or, when the label has several columns and
    as many of them as the table has rows, column [i] with the kind or the
    value of row [i] alone.  Nothing else changes, and the table keeps its
    rows.  On each row the column of kinds and the column of values hold
    what [extract_measurement] returned for the message of that row: the
    kind or [None], and the value or a missing value. *)
Theorem process_messages_table self frame messages result :
  weather_df self = Some frame →
  rectangular frame →
  select "Message" frame = [messages] →
  messages ≠ [] →
  Forall2 (λ c r, extract_measurement lib self c = Ok r) messages result →
  ∃ frame',
    process_messages lib apply_to_frame self
    = (Ok (Some frame'), set_weather_df (Some frame') self) ∧
    columns frame' = columns frame ++ filter (λ l, l ∉ columns frame) ["Measurement"; "Value"] ∧
    nrows frame' = nrows frame ∧
    rectangular frame' ∧
    (∀ l, l ≠ "Measurement" → l ≠ "Value" → select l frame' = select l frame) ∧
    (¬ (1 < length (select "Measurement" frame) ∧
        length (select "Measurement" frame) = nrows frame) →
     select "Measurement" frame'
     = replicate (length (select "Measurement" frame) `max` 1) (kind_cell <$> result.*1)) ∧
    (1 < length (select "Measurement" frame) ∧
     length (select "Measurement" frame) = nrows frame →
     select "Measurement" frame'
     = (λ c, replicate (nrows frame) c) <$> (kind_cell <$> result.*1)) ∧
    (¬ (1 < length (select "Value" frame) ∧ length (select "Value" frame) = nrows frame) →
     select "Value" frame'
     = replicate (length (select "Value" frame) `max` 1) (value_column result.*2)) ∧
    (1 < length (select "Value" frame) ∧ length (select "Value" frame) = nrows frame →
     select "Value" frame'
     = (λ c, replicate (nrows frame) c) <$> (value_cell <$> result.*2)) ∧
    (∀ i kind value, result !! i = Some (kind, value) →
       (kind_cell <$> result.*1) !! i = Some (kind_cell kind) ∧
       (value_cell <$> result.*2) !! i = Some (value_cell value) ∧
       ∃ c, value_column result.*2 !! i = Some c ∧
            match value with
            | Some x => c = CFloat x
            | None => isna c = true
            end).
Proof.
  intros Hdf Hrect Hsel Hne Hall.
  pose proof (rectangular_select _ _ _ Hrect Hsel) as Hlen.
  destruct (process_messages_stores self frame messages result Hdf Hsel Hlen Hne Hall)
    as (frame' & Hrun & Hc & Hrows & Hrect' & Ho & HM & HM' & HV & HV').
  exists frame'. split_and!; [done|done|done|auto|done|done|done|done|done|].
  intros i kind value Hi. split_and!.
  - by rewrite !list_lookup_fmap, Hi.
  - by rewrite !list_lookup_fmap, Hi.
  - apply value_column_lookup. by rewrite list_lookup_fmap, Hi.
Qed.

Lemma mapM_to_float_value_column values :
  mapM to_float (value_column values) = Ok (default PrimFloat.nan <$> values).
Proof.
  apply Forall2_mapM_outcome. unfold value_column. case_decide as Hall.
  - induction Hall as [|v values -> _ IH]; [constructor|].
    rewrite !fmap_cons. by constructor.
  - clear Hall. induction values as [|v values IH]; [constructor|].
    rewrite !fmap_cons. by constructor.
Qed.

Lemma column_one (d : DataFrame) label s : select label d = [s] → column d label = Ok s.
Proof. unfold column. by intros ->. Qed.

(** The kind [extract_measurement] returns is one of the configured keys. *)
Lemma extract_measurement_kind self c k v :
  extract_measurement lib self c = Ok (Some k, v) → k ∈ (patterns self).*1.
Proof.
  intros Hrun. destruct (extract_from_outcomes lib (patterns self) c) as (_ & Hok & _).
  destruct (Hok _ _ Hrun) as [(? & _)|(k' & v' & before & pattern & after & groups & text &
                                       [= <-] & _ & -> & _)]; [done|].
  rewrite fmap_app, fmap_cons. apply elem_of_app. right. by left.
Qed.

(** X18.  Parsing, then averaging.  On a table with one column of stations
    and one of messages, all processed, [calculate_means] returns after
    [process_messages]: the values the parse stored can always be averaged.
    The table of means is the one of the rows made of the station, the kind
    extracted and the value extracted ([nan] where there is none); its
    columns are configured kinds and nothing else, and its rows stations of
    the table. *)
Theorem process_messages_then_means self frame stations messages result :
  weather_df self = Some frame →
  rectangular frame →
  select "Message" frame = [messages] →
  messages ≠ [] →
  Forall2 (λ c r, extract_measurement lib self c = Ok r) messages result →
  select "Weather_station_ID" frame = [stations] →
  length (select "Measurement" frame) ≤ 1 →
  length (select "Value" frame) ≤ 1 →
  ∃ table,
    calculate_means (process_messages lib apply_to_frame self).2 = Ok (Some table) ∧
    table = unstack (group_means (zip_rows stations (kind_cell <$> result.*1)
                                    (default PrimFloat.nan <$> result.*2))) ∧
    (∀ b, b ∈ pivot_columns table → ∃ k, b = CStr k ∧ k ∈ (patterns self).*1) ∧
    (∀ a, a ∈ index table → ∃ x, x ∈ stations ∧ a = key x).
Proof.
  intros Hdf Hrect Hsel Hne Hall Hstations HM1 HV1.
  pose proof (rectangular_select _ _ _ Hrect Hsel) as Hlen.
  destruct (process_messages_stores self frame messages result Hdf Hsel Hlen Hne Hall)
    as (frame' & Hrun & _ & _ & _ & Ho & HM & _ & HV & _).
  assert (select "Measurement" frame' = [kind_cell <$> result.*1]) as HM'.
  { rewrite HM by lia.
    by replace (length (select "Measurement" frame) `max` 1) with 1 by lia. }
  assert (select "Value" frame' = [value_column result.*2]) as HV'.
  { rewrite HV by lia.
    by replace (length (select "Value" frame) `max` 1) with 1 by lia. }
  eexists. split_and!; [|done| |].
  - rewrite Hrun. unfold calculate_means. simpl.
    rewrite (column_one frame' "Weather_station_ID" stations) by (by rewrite Ho).
    simpl. rewrite (column_one frame' "Measurement" _ HM'). simpl.
    rewrite (column_one frame' "Value" _ HV'). simpl.
    by rewrite mapM_to_float_value_column.
  - intros b Hb. simpl in Hb. rewrite elem_of_sorted_keys, elem_of_inner_keys in Hb.
    destruct Hb as (a & v & ((w & Hw) & _ & Hna & _)%elem_of_group_means).
    apply elem_of_zip_rows in Hw as [_ (y & Hy & ->)].
    apply list_elem_of_fmap in Hy as (k0 & -> & Hk0).
    apply list_elem_of_fmap in Hk0 as ([k1 v1] & -> & Hin).
    apply list_elem_of_lookup in Hin as (i & Hi).
    destruct (Forall2_lookup_r _ _ _ _ _ Hall Hi) as (c & _ & Hc).
    destruct k1 as [k|]; [|done]. exists k. split; [done|].
    by eapply extract_measurement_kind.
  - intros a Ha. simpl in Ha. rewrite elem_of_sorted_keys, elem_of_outer_keys in Ha.
    destruct Ha as (k & v & ((w & Hw) & _)%elem_of_group_means).
    by apply elem_of_zip_rows in Hw as [? _].
Qed.

(** X19.  The weather processor's [process] fetches the table and parses
    it.  When the fetch raises, the processor is left as it was.  When the
    fetch returns a table with at most one [Message] column, any exception
    of the parse leaves that table stored as it was fetched, without the two
    new columns; and a run that completes has stored a table with at least
    one row, as many rows as fetched, and a [Measurement] and a [Value]
    column. *)
Theorem weather_process_outcomes self :
  (∀ e, read_csv lib (weather_station_data self) = Raise e →
     process lib apply_to_frame self = (Raise e, self)) ∧
  (∀ frame, read_csv lib (weather_station_data self) = Ok frame →
     length (select "Message" frame) ≤ 1 →
     (process lib apply_to_frame self).1 ≠ OutOfFuel ∧
     (∀ e, (process lib apply_to_frame self).1 = Raise e →
           (process lib apply_to_frame self).2 = set_weather_df (Some frame) self) ∧
     ((process lib apply_to_frame self).1 = Ok () →
      ∃ frame',
        (process lib apply_to_frame self).2 = set_weather_df (Some frame') self ∧
        0 < nrows frame' ∧ nrows frame' = nrows frame ∧
        "Measurement" ∈ columns frame' ∧ "Value" ∈ columns frame' ∧
        ∀ l, l ≠ "Measurement" → l ≠ "Value" → select l frame' = select l frame)).
Proof.
  assert (∀ U, read_from_web_CSV lib U = read_csv lib U) as Hread.
  { intros U. unfold read_from_web_CSV.
    destruct (read_csv lib U) as [|e|]; simpl; [done| |done].
    by destruct (is_EmptyDataError e). }
  unfold process, weather_station_mapping.
  cbv [mbind method_bind get_self call assign mret method_ret]. rewrite Hread.
  split.
  - by intros e ->.
  - intros frame -> Hone.
    destruct (process_messages_cases (set_weather_df (Some frame) self) frame eq_refl Hone)
      as [[e ->]|(frame' & -> & Hrows)].
    + by split_and!.
    + split_and!; [done..|]. intros _. by exists frame'.
Qed.

(** X20.  [run_weather_data_processing] raises [KeyError] for the first of
    its two keys that the dict lacks: so it does, for [regex_patterns], on
    the dict of config.py, whatever the feed.  With both keys it raises what
    the fetch raised; and when it returns on a feed with at most one
    [Message] column, it returns a table, never [None], with at least one
    row, as many rows as fetched, and the two new columns. *)
Theorem run_weather_data_processing_outcomes (cfg : Config.config) :
  (∀ key, head (weather_keys_absent cfg) = Some key →
     Runs.run_weather_data_processing lib apply_to_frame cfg = Raise (KeyError key)) ∧
  Runs.run_weather_data_processing lib apply_to_frame Config.config_params
  = Raise (KeyError "regex_patterns") ∧
  (∀ URL rules,
     Config.weather_csv_path cfg = Some URL → Config.regex_patterns cfg = Some rules →
     (∀ e, read_csv lib URL = Raise e →
        Runs.run_weather_data_processing lib apply_to_frame cfg = Raise e) ∧
     (∀ frame result,
        read_csv lib URL = Ok frame → length (select "Message" frame) ≤ 1 →
        Runs.run_weather_data_processing lib apply_to_frame cfg = Ok result →
        ∃ frame', result = Some frame' ∧
          0 < nrows frame' ∧ nrows frame' = nrows frame ∧
          "Measurement" ∈ columns frame' ∧ "Value" ∈ columns frame')).
Proof.
  assert (∀ U, read_from_web_CSV lib U = read_csv lib U) as Hread.
  { intros U. unfold read_from_web_CSV.
    destruct (read_csv lib U) as [|e|]; simpl; [done| |done].
    by destruct (is_EmptyDataError e). }
  split_and!; [|done|].
  - intros key. unfold Runs.run_weather_data_processing.
    destruct cfg as [q d c v [w|] m [r|]]; cbn -[process]; try done; by intros [= <-].
  - intros URL rules HURL Hrules. unfold Runs.run_weather_data_processing.
    destruct cfg as [q d c v w m r]. simpl in HURL, Hrules. subst w r. cbn -[process].
    unfold process, weather_station_mapping.
    cbv [mbind method_bind get_self call assign mret method_ret]. rewrite Hread.
    cbn [weather_station_data]. split.
    + by intros e ->.
    + intros frame result -> Hone.
      match goal with
      | |- context [process_messages lib apply_to_frame ?s] =>
          destruct (process_messages_cases s frame eq_refl Hone)
            as [[e ->]|(frame' & -> & Hrows & Hsame & HM & HV & _)]
      end; [done|].
      intros [= <-]. by exists frame'.
Qed.

End Messages.

Lemma process_messages_table_witness :
  ∃ frame',
    WeatherDataProcessor.process_messages Examples.library Examples.refuse Examples.feed_processor
    = (Ok (Some frame'),
       WeatherDataProcessor.set_weather_df (Some frame') Examples.feed_processor) ∧
    columns frame' = ["Weather_station_ID"; "Message"; "Measurement"; "Value"] ∧
    select "Measurement" frame' = [[CStr "Temperature"; CStr "Rainfall"; CNone]] ∧
    select "Value" frame' = [[CFloat 10%float; CFloat 5%float; CFloat PrimFloat.nan]].
Proof.
  destruct (process_messages_table Examples.library Examples.refuse Examples.feed_processor
              Examples.feed
              [CStr "Temperature: 10.0 C"; CStr "Rainfall: 5.0 mm"; CStr "no reading"]
              [(Some "Temperature", Some 10%float); (Some "Rainfall", Some 5%float);
               (None, None)])
    as (frame' & Hrun & Hc & _ & _ & _ & HM & _ & HV & _).
  - reflexivity.
  - by repeat constructor.
  - reflexivity.
  - done.
  - by repeat constructor.
  - exists frame'. split_and!; [done| | |].
    + rewrite Hc. by vm_compute.
    + rewrite HM; [by vm_compute|]. simpl. lia.
    + rewrite HV; [by vm_compute|]. simpl. lia.
Defined.

(** A message that is no string: the batch is aborted with the error of
    the first pattern when this one is no regular expression, and with
    [TypeError] when it compiles. *)
Example process_messages_not_a_string :
  let frame := [("Message", [CFloat PrimFloat.nan])] in
  (WeatherDataProcessor.process_messages Examples.library Examples.refuse
     (WeatherDataProcessor.set_weather_df (Some frame) Examples.unbalanced_processor)).1
  = Raise (ReError "missing ), unterminated subpattern at position 0") ∧
  (WeatherDataProcessor.process_messages Examples.library Examples.refuse
     (WeatherDataProcessor.set_weather_df (Some frame) Examples.feed_processor)).1
  = Raise (TypeError "expected string or bytes-like object").
Proof. by vm_compute. Qed.

(** A table that already has two [Value] columns and two rows: each column
    is filled with the value of one row. *)
Example process_messages_two_value_columns :
  let frame := [("Message", [CStr "Temperature: 10.0 C"; CStr "Rainfall: 5.0 mm"]);
                ("Value", [CNone; CNone]); ("Value", [CNone; CNone])] in
  WeatherDataProcessor.weather_df
    (WeatherDataProcessor.process_messages Examples.library Examples.refuse
       (WeatherDataProcessor.set_weather_df (Some frame) Examples.feed_processor)).2
  = Some [("Message", [CStr "Temperature: 10.0 C"; CStr "Rainfall: 5.0 mm"]);
          ("Value", [CFloat 10%float; CFloat 10%float]);
          ("Value", [CFloat 5%float; CFloat 5%float]);
          ("Measurement", [CStr "Temperature"; CStr "Rainfall"])].
Proof. by vm_compute. Qed.

Lemma process_messages_then_means_witness :
  ∃ table,
    WeatherDataProcessor.calculate_means
      (WeatherDataProcessor.process_messages Examples.library Examples.refuse
         Examples.feed_processor).2
    = Ok (Some table) ∧
    ∀ b, b ∈ pivot_columns table → b = CStr "Rainfall" ∨ b = CStr "Temperature".
Proof.
  destruct (process_messages_then_means Examples.library Examples.refuse
              Examples.feed_processor Examples.feed
              [CStr "S1"; CStr "S2"; CStr "S1"]
              [CStr "Temperature: 10.0 C"; CStr "Rainfall: 5.0 mm"; CStr "no reading"]
              [(Some "Temperature", Some 10%float); (Some "Rainfall", Some 5%float);
               (None, None)])
    as (table & Hrun & _ & Hcols & _).
  - reflexivity.
  - by repeat constructor.
  - reflexivity.
  - done.
  - by repeat constructor.
  - reflexivity.
  - simpl. lia.
  - simpl. lia.
  - exists table. split; [done|]. intros b Hb.
    destruct (Hcols b Hb) as (k & -> & Hk).
    apply elem_of_cons in Hk as [->|Hk]; [by left|].
    apply list_elem_of_singleton in Hk as ->. by right.
Defined.

(* ===================================================================== *)
(** * The report and its driver *)
(* ===================================================================== *)
Section Driver.
Import Main.
Context (lib : Libraries).

Lemma ltb_nan (x y : float) :
  PrimFloat.is_nan x = true ∨ PrimFloat.is_nan y = true → (x <? y)%float = false.
Proof.
  assert (∀ z, PrimFloat.is_nan z = true → Prim2SF z = SpecFloat.S754_nan) as Hnan.
  { intros z. unfold PrimFloat.is_nan. rewrite FloatAxioms.eqb_spec.
    destruct (Prim2SF z) as [[]|[]| |[] m e]; try done;
      unfold SpecFloat.SFeqb, SpecFloat.SFcompare;
      rewrite Z.compare_refl, Pos.compare_cont_refl; done. }
  rewrite FloatAxioms.ltb_spec. intros [Hx%Hnan|Hy%Hnan].
  - by rewrite Hx.
  - rewrite Hy. by destruct (Prim2SF x) as [[]|[]| |[] ? ?].
Qed.

(** X21.  A p-value or a threshold that is not a number always gives the
    verdict of no significant difference: [print_ttest_results] never
    rejects on [nan]. *)
Theorem print_ttest_results_not_a_number station_id measurement p_val alpha stdout :
  PrimFloat.is_nan p_val = true ∨ PrimFloat.is_nan alpha = true →
  last (print_ttest_results lib station_id measurement p_val alpha stdout) = Some not_rejected.
Proof.
  intros Hnan. unfold print_ttest_results. rewrite (ltb_nan _ _ Hnan).
  by rewrite last_app.
Qed.

(** X22.  [hypothesis_results] prints its heading and then, as soon as
    there is a measurement to compare, raises the [NameError] of
    [station_id], a name it does not bind and the module does not either:
    no test is run and no verdict printed, whatever the tables.  With no
    measurement it returns after the heading. *)
Theorem hypothesis_results_name_error compare field_df weather_df measurements alpha stdout :
  (hypothesis_results compare field_df weather_df measurements alpha stdout).2
  = stdout ++ ["Hypothesis Testing Results:"] ∧
  ((hypothesis_results compare field_df weather_df measurements alpha stdout).1 = Ok ()
   ↔ measurements = []) ∧
  ((hypothesis_results compare field_df weather_df measurements alpha stdout).1
   = Raise (OtherError "NameError: name 'station_id' is not defined")
   ↔ measurements ≠ []).
Proof.
  assert (read_global "station_id"
          = Raise (OtherError "NameError: name 'station_id' is not defined")) as Hname
    by (by vm_compute).
  unfold hypothesis_results. cbv [mbind method_bind assign].
  destruct measurements as [|measurement measurements]; cbn [hypothesis_loop].
  - by split_and!.
  - cbv [mbind method_bind call]. rewrite Hname. by split_and!.
Qed.

End Driver.

Lemma print_ttest_results_not_a_number_witness :
  last (Main.print_ttest_results Examples.library 0 "Temperature" PrimFloat.nan 0.05 [])
  = Some Main.not_rejected.
Proof.
  apply (print_ttest_results_not_a_number Examples.library 0 "Temperature" PrimFloat.nan 0.05 []).
  left. reflexivity.
Defined.
